(** * SeqAnHTS: the indexed alignment file of [seqan/hts_io/hts_file.h]

    A shallow embedding of [class HtsFile], its two subclasses and the free
    functions of the header ([open], [loadIndex], [buildIndex], [setRegion],
    [readRecord], [readRegion], [writeRecord], ...).

    The header is a thin layer over htslib.  Every htslib entry point the
    header calls is an _event_ ([htsE]); the library itself is a parameter
    ([library]) that answers an event from the history of the calls made so
    far, so a theorem proved here holds whatever the library answers.  The
    state threaded through the code is that history: it records which calls
    were made, with which arguments, in which order, and what came back. *)

From Stdlib Require Import ZArith NArith List String Ascii Bool Lia.
From Stdlib Require Import DecimalString DecimalPos DecimalZ.
Import ListNotations.

Local Open Scope Z_scope.
Local Open Scope string_scope.

(** ** Pointers and C strings *)

(** A pointer is a machine address; the null pointer is address 0. *)
Definition ptr := N.
Definition nullptr : ptr := 0%N.

(** [p == nullptr] *)
Definition is_null (p : ptr) : bool := N.eqb p nullptr.

(** The conversion of a pointer to [bool] ([return file.hts_iter;]) and the
    test [p != nullptr]. *)
Definition non_null (p : ptr) : bool := negb (is_null p).

(** [!x] on an [int]: true exactly for 0. *)
Definition lnot (x : Z) : bool := Z.eqb x 0.

(** htslib reports the outcome of [sam_read1], [sam_itr_next] and
    [sam_write1] the same way: a result [>= 0] (for a BAM write, the number
    of bytes written) is a success, a negative one an end of data or an
    error.  The header tests the two reads with [>= 0]. *)
Definition hts_ok (status : Z) : bool := (0 <=? status)%Z.

(** A [const char *] whose address matters: where the characters are, and
    what they are.  [==] on two of them compares the addresses only. *)
Record cstr := { c_addr : ptr; c_text : string }.

Definition ptr_eq (a b : cstr) : bool := N.eqb (c_addr a) (c_addr b).

(** The string literals of the header that are used as file modes.  Whether
    two literals with the same characters are one object is left to the
    implementation, so each occurrence has an address of its own. *)
Inductive literal :=
| Lit_read_mode        (* static const char * read_mode = "r";   in open() *)
| Lit_HtsFile_default  (* HtsFile(const char * mode = "r") *)
| Lit_HtsFileIn        (* HtsFileIn() : HtsFile("r") *)
| Lit_HtsFileIn_f      (* HtsFileIn(f) : HtsFile(f, "r") *)
| Lit_HtsFileOut       (* HtsFileOut() : HtsFile("wb") *)
| Lit_HtsFileOut_f.    (* HtsFileOut(f) : HtsFile(f, "wb") *)

Definition lit_text (l : literal) : string :=
  match l with
  | Lit_HtsFileOut | Lit_HtsFileOut_f => "wb"
  | _ => "r"
  end.

(** ** The object *)

(** [class HtsFile].  [filename] is a [const char *] of which only the
    characters are ever used, so it is kept as its characters. *)
Record HtsFile := mkHtsFile {
  filename   : string;
  fp         : ptr;     (* htsFile *   *)
  hdr        : ptr;     (* bam_hdr_t * *)
  hts_record : ptr;     (* bam1_t *    *)
  hts_index  : ptr;     (* hts_idx_t * *)
  hts_iter   : ptr;     (* hts_itr_t * *)
  file_mode  : cstr;
  at_end     : bool
}.

Definition set_filename (f : HtsFile) (v : string) : HtsFile :=
  mkHtsFile v (fp f) (hdr f) (hts_record f) (hts_index f) (hts_iter f)
            (file_mode f) (at_end f).
Definition set_fp (f : HtsFile) (v : ptr) : HtsFile :=
  mkHtsFile (filename f) v (hdr f) (hts_record f) (hts_index f) (hts_iter f)
            (file_mode f) (at_end f).
Definition set_hdr (f : HtsFile) (v : ptr) : HtsFile :=
  mkHtsFile (filename f) (fp f) v (hts_record f) (hts_index f) (hts_iter f)
            (file_mode f) (at_end f).
Definition set_hts_record (f : HtsFile) (v : ptr) : HtsFile :=
  mkHtsFile (filename f) (fp f) (hdr f) v (hts_index f) (hts_iter f)
            (file_mode f) (at_end f).
Definition set_hts_index (f : HtsFile) (v : ptr) : HtsFile :=
  mkHtsFile (filename f) (fp f) (hdr f) (hts_record f) v (hts_iter f)
            (file_mode f) (at_end f).
Definition set_hts_iter (f : HtsFile) (v : ptr) : HtsFile :=
  mkHtsFile (filename f) (fp f) (hdr f) (hts_record f) (hts_index f) v
            (file_mode f) (at_end f).
Definition set_at_end (f : HtsFile) (v : bool) : HtsFile :=
  mkHtsFile (filename f) (fp f) (hdr f) (hts_record f) (hts_index f)
            (hts_iter f) (file_mode f) v.

(** ** Region strings *)

(** [%d] *)
Definition dec (z : Z) : string := NilZero.string_of_int (Z.to_int z).

(** [sprintf(region, "%s:%d-%d", chromosome, start, end)]: the characters
    written, without the final NUL. *)
Definition region_string (chromosome : string) (start end_ : Z) : string :=
  chromosome ++ ":" ++ dec start ++ "-" ++ dec end_.

(** [char region[50]]: the characters and the NUL have to fit. *)
Definition region_capacity : nat := 50.

Definition fits_region_buffer (s : string) : bool :=
  Nat.ltb (String.length s) region_capacity.

(** The values of a 32-bit [int]. *)
Definition int_range (z : Z) : Prop := (- 2 ^ 31 <= z < 2 ^ 31)%Z.

(** The part of [s] before the first [c] and the part after it. *)
Fixpoint split_at (c : ascii) (s : string) : option (string * string) :=
  match s with
  | EmptyString => None
  | String a s' =>
      if Ascii.eqb a c then Some (EmptyString, s')
      else match split_at c s' with
           | Some (l, r) => Some (String a l, r)
           | None => None
           end
  end.

(** [c] is one of the characters of [s]. *)
Fixpoint occurs (c : ascii) (s : string) : bool :=
  match s with
  | EmptyString => false
  | String a s' => Ascii.eqb a c || occurs c s'
  end.

(** An unsigned decimal coordinate. *)
Definition coord (s : string) : option Z :=
  option_map Z.of_uint (NilZero.uint_of_string s).

(** Modelled from the spec: the region grammar of the index queries, which
    belongs to htslib and is not part of the header.  "Public string form is
    NAME, NAME:START, or NAME:START-END and is 1-based inclusive", "converted
    to 0-based half-open before querying the Index".  The result is the
    reference name, the 0-based first position and the 0-based position
    one past the last ([None]: up to the end of the reference). *)
Definition region_interval (region : string) : option (string * Z * option Z) :=
  match split_at ":" region with
  | None => Some (region, 0, None)
  | Some (name, range) =>
      match split_at "-" range with
      | None =>
          match coord range with
          | Some s => Some (name, s - 1, None)
          | None => None
          end
      | Some (a, b) =>
          match coord a, coord b with
          | Some s, Some e => Some (name, s - 1, Some e)
          | _, _ => None
          end
      end
  end.

(** Two 0-based half-open intervals [[b1, e1)] and [[b2, e2)] overlap. *)
Definition overlaps (b1 e1 b2 e2 : Z) : bool := ((b1 <? e2) && (b2 <? e1))%Z.

(** ** The library and the code *)

Section Hts.

(** The two caller-facing record types, [HtsSequenceRecord]
    (hts_alignment_record.h) and [BamAlignmentRecord]
    (bam_alignment_record.h). *)
Context {HtsSequenceRecord BamAlignmentRecord : Type}.

(** The calls the header makes, each with the type of what it returns:
    htslib's, and the three transcoders of the two record headers
    ([record.parse(b)], [parse(record, b)] and [parse(b, hdr, record)]). *)
Inductive htsE : Type -> Type :=
| hts_open (fn mode : string) : htsE ptr
| sam_hdr_read (p : ptr) : htsE ptr
| bam_init1 : htsE ptr
| bam_hdr_destroy (h : ptr) : htsE unit
| hts_close (p : ptr) : htsE Z
| bam_hdr_dup (h : ptr) : htsE ptr
| bam_dup1 (b : ptr) : htsE ptr
| sam_index_load (p : ptr) (fn : string) : htsE ptr
| sam_index_load2 (p : ptr) (fn fnidx : string) : htsE ptr
| sam_index_build (fn : string) (min_shift : Z) : htsE Z
| sam_index_build2 (fn fnidx : string) (min_shift : Z) : htsE Z
| sam_itr_destroy (it : ptr) : htsE unit
| sam_itr_querys (idx h : ptr) (region : string) : htsE ptr
| sam_itr_queryi (idx : ptr) (tid beg end_ : Z) : htsE ptr
| sam_read1 (p h b : ptr) : htsE Z
| sam_itr_next (p it b : ptr) : htsE Z
| sam_hdr_write (p h : ptr) : htsE Z
| sam_write1 (p h b : ptr) : htsE Z
| seq_parse (record : HtsSequenceRecord) (b : ptr) : htsE HtsSequenceRecord
| bam_parse (record : BamAlignmentRecord) (b : ptr) : htsE BamAlignmentRecord
| raw_parse (b h : ptr) (record : BamAlignmentRecord) : htsE unit.

(** A call that was made, and what it returned. *)
Inductive event : Type :=
| Ev : forall T : Type, htsE T -> T -> event.
Arguments Ev {T} _ _.

Definition history := list event.

(** The library: what a call returns, given everything that happened
    before it. *)
Definition library := forall T : Type, history -> htsE T -> T.

(** How a call of the header ends: it returns; the process is stopped by
    [SEQAN_FAIL]; or the behaviour is undefined (a write past the end of a
    buffer). *)
Inductive outcome (A : Type) : Type :=
| Ret (a : A) (h : history)
| Abort (h : history)
| Undef (h : history).
Arguments Ret {A} _ _.
Arguments Abort {A} _.
Arguments Undef {A} _.

Definition M (A : Type) : Type := history -> outcome A.

Definition ret {A} (a : A) : M A := fun h => Ret a h.

Definition bind {A B} (m : M A) (k : A -> M B) : M B :=
  fun h =>
    match m h with
    | Ret a h' => k a h'
    | Abort h' => Abort h'
    | Undef h' => Undef h'
    end.

Definition seqan_fail {A} : M A := fun h => Abort h.
Definition undefined {A} : M A := fun h => Undef h.

Notation "x <- m ;; k" := (bind m (fun x => k))
  (at level 100, m at next level, right associativity).
Notation "m ;;; k" := (bind m (fun _ => k))
  (at level 100, right associativity).

Variable lib : library.

(** The addresses the implementation gives the mode literals. *)
Variable lit_addr : literal -> ptr.

Definition lit (l : literal) : cstr :=
  {| c_addr := lit_addr l; c_text := lit_text l |}.

Definition call {T} (e : htsE T) : M T :=
  fun h => let r := lib T h e in Ret r (h ++ [Ev e r])%list.

(** *** [class HtsFile] *)

(** [HtsFile(const char * mode = "r")] *)
Definition HtsFile_new (mode : cstr) : HtsFile :=
  mkHtsFile "" nullptr nullptr nullptr nullptr nullptr mode false.

(** [static const char * read_mode = "r";] *)
Definition read_mode : cstr := lit Lit_read_mode.

(** [HtsFile::open()] *)
Definition HtsFile_open (f : HtsFile) : M (bool * HtsFile) :=
  p <- call (hts_open (filename f) (c_text (file_mode f))) ;;
  let f := set_fp f p in
  if is_null (fp f) then seqan_fail
  else
    f <- (if ptr_eq (file_mode f) read_mode
          then h <- call (sam_hdr_read (fp f)) ;; ret (set_hdr f h)
          else ret f) ;;
    b <- call bam_init1 ;;
    ret (true, set_hts_record f b).

(** [HtsFile(const char * f, const char * mode)] *)
Definition HtsFile_new_open (fn : string) (mode : cstr) : M HtsFile :=
  let f := mkHtsFile fn nullptr nullptr nullptr nullptr nullptr mode false in
  r <- HtsFile_open f ;;
  ret (snd r).

(** [~HtsFile()] *)
Definition HtsFile_destroy (f : HtsFile) : M unit :=
  call (bam_hdr_destroy (hdr f)) ;;;
  call (hts_close (fp f)) ;;;
  ret tt.

(** [HtsFileIn()], [HtsFileIn(f)], [HtsFileOut()], [HtsFileOut(f)] *)
Definition HtsFileIn_new : HtsFile := HtsFile_new (lit Lit_HtsFileIn).
Definition HtsFileIn_new_open (fn : string) : M HtsFile :=
  HtsFile_new_open fn (lit Lit_HtsFileIn_f).
Definition HtsFileOut_new : HtsFile := HtsFile_new (lit Lit_HtsFileOut).
Definition HtsFileOut_new_open (fn : string) : M HtsFile :=
  HtsFile_new_open fn (lit Lit_HtsFileOut_f).

(** *** The free functions *)

(** [open(HtsFile & target, const char * f)] *)
Definition open (target : HtsFile) (fn : string) : M (bool * HtsFile) :=
  let target := set_filename target fn in
  HtsFile_open target.

(** [open(HtsFile & target, std::istream &)] *)
Definition open_stream (target : HtsFile) : M (bool * HtsFile) :=
  open target "-".

(** [copyHeader(target, source)] *)
Definition copyHeader (target source : HtsFile) : M HtsFile :=
  h <- call (bam_hdr_dup (hdr source)) ;;
  ret (set_hdr target h).

(** [copyRecord(target, source)] *)
Definition copyRecord (target source : HtsFile) : M HtsFile :=
  b <- call (bam_dup1 (hts_record source)) ;;
  ret (set_hts_record target b).

(** [loadIndex(file)] *)
Definition loadIndex (file : HtsFile) : M (bool * HtsFile) :=
  i <- call (sam_index_load (fp file) (filename file)) ;;
  let file := set_hts_index file i in
  ret (non_null (hts_index file), file).

(** [loadIndex(file, indexFileName)] *)
Definition loadIndex2 (file : HtsFile) (indexFileName : string)
  : M (bool * HtsFile) :=
  i <- call (sam_index_load2 (fp file) (filename file) indexFileName) ;;
  let file := set_hts_index file i in
  ret (non_null (hts_index file), file).

(** [buildIndex(file, min_shift)]; the object is only read. *)
Definition buildIndex (file : HtsFile) (min_shift : Z) : M bool :=
  r <- call (sam_index_build (filename file) min_shift) ;;
  ret (lnot r).

(** [buildIndex(file, indexFileName, min_shift)] *)
Definition buildIndex2 (file : HtsFile) (indexFileName : string)
    (min_shift : Z) : M bool :=
  r <- call (sam_index_build2 (filename file) indexFileName min_shift) ;;
  ret (lnot r).

(** [if (file.hts_iter != nullptr) sam_itr_destroy(file.hts_iter);] *)
Definition destroy_iter (file : HtsFile) : M unit :=
  if non_null (hts_iter file) then call (sam_itr_destroy (hts_iter file))
  else ret tt.

(** [setRegion(file, region)] *)
Definition setRegion (file : HtsFile) (region : string)
  : M (bool * HtsFile) :=
  destroy_iter file ;;;
  it <- call (sam_itr_querys (hts_index file) (hdr file) region) ;;
  let file := set_hts_iter file it in
  ret (non_null (hts_iter file), file).

(** [char region[50]; sprintf(region, "%s:%d-%d", chromosome, start, end);] *)
Definition sprintf_region (chromosome : string) (start end_ : Z) : M string :=
  let region := region_string chromosome start end_ in
  if fits_region_buffer region then ret region else undefined.

(** [setRegion(file, chromosome, start, end)] *)
Definition setRegion_name (file : HtsFile) (chromosome : string)
    (start end_ : Z) : M (bool * HtsFile) :=
  destroy_iter file ;;;
  region <- sprintf_region chromosome start end_ ;;
  it <- call (sam_itr_querys (hts_index file) (hdr file) region) ;;
  let file := set_hts_iter file it in
  ret (non_null (hts_iter file), file).

(** [setRegion(file, tid, start, end)] *)
Definition setRegion_tid (file : HtsFile) (tid start end_ : Z)
  : M (bool * HtsFile) :=
  destroy_iter file ;;;
  it <- call (sam_itr_queryi (hts_index file) tid start end_) ;;
  let file := set_hts_iter file it in
  ret (non_null (hts_iter file), file).

(** [atEnd(file)] *)
Definition atEnd (file : HtsFile) : bool := at_end file.

(** [readRecord(file)] *)
Definition readRecord (file : HtsFile) : M (bool * HtsFile) :=
  r <- call (sam_read1 (fp file) (hdr file) (hts_record file)) ;;
  if (0 <=? r)%Z then ret (true, file)
  else
    let file := set_at_end file true in
    ret (false, file).

(** [readRecord(HtsSequenceRecord & record, file)] *)
Definition readRecord_seq (record : HtsSequenceRecord) (file : HtsFile)
  : M (bool * HtsSequenceRecord * HtsFile) :=
  r <- readRecord file ;;
  let (ok, file) := r in
  if ok then
    record <- call (seq_parse record (hts_record file)) ;;
    ret (true, record, file)
  else ret (false, record, file).

(** [readRecord(BamAlignmentRecord & record, file)] *)
Definition readRecord_bam (record : BamAlignmentRecord) (file : HtsFile)
  : M (bool * BamAlignmentRecord * HtsFile) :=
  r <- readRecord file ;;
  let (ok, file) := r in
  if ok then
    record <- call (bam_parse record (hts_record file)) ;;
    ret (true, record, file)
  else ret (false, record, file).

(** [readRegion(record, file)] *)
Definition readRegion (record : HtsSequenceRecord) (file : HtsFile)
  : M (bool * HtsSequenceRecord * HtsFile) :=
  r <- call (sam_itr_next (fp file) (hts_iter file) (hts_record file)) ;;
  if (0 <=? r)%Z then
    record <- call (seq_parse record (hts_record file)) ;;
    ret (true, record, file)
  else ret (false, record, file).

(** [writeHeader(file)] *)
Definition writeHeader (file : HtsFile) : M bool :=
  r <- call (sam_hdr_write (fp file) (hdr file)) ;;
  ret (lnot r).

(** [writeRecord(file)] *)
Definition writeRecord (file : HtsFile) : M bool :=
  r <- call (sam_write1 (fp file) (hdr file) (hts_record file)) ;;
  ret (lnot r).

(** [writeRecord(file, record)] *)
Definition writeRecord_bam (file : HtsFile) (record : BamAlignmentRecord)
  : M bool :=
  call (raw_parse (hts_record file) (hdr file) record) ;;;
  writeRecord file.

(** *** The operations as data *)

(** One call of a free function of the header on a file object. *)
Inductive operation : Type :=
| Op_open (fn : string)
| Op_open_stream
| Op_copyHeader (source : HtsFile)
| Op_copyRecord (source : HtsFile)
| Op_loadIndex
| Op_loadIndex2 (indexFileName : string)
| Op_buildIndex (min_shift : Z)
| Op_buildIndex2 (indexFileName : string) (min_shift : Z)
| Op_setRegion (region : string)
| Op_setRegion_name (chromosome : string) (start end_ : Z)
| Op_setRegion_tid (tid start end_ : Z)
| Op_atEnd
| Op_readRecord
| Op_readRecord_seq (record : HtsSequenceRecord)
| Op_readRecord_bam (record : BamAlignmentRecord)
| Op_readRegion (record : HtsSequenceRecord)
| Op_writeHeader
| Op_writeRecord
| Op_writeRecord_bam (record : BamAlignmentRecord).

(** The three overloads of the sequential [readRecord]. *)
Definition is_readRecord (op : operation) : bool :=
  match op with
  | Op_readRecord | Op_readRecord_seq _ | Op_readRecord_bam _ => true
  | _ => false
  end.

(** The object after the call (what the call returns is dropped). *)
Definition apply_op (op : operation) (file : HtsFile) : M HtsFile :=
  match op with
  | Op_open fn => r <- open file fn ;; ret (snd r)
  | Op_open_stream => r <- open_stream file ;; ret (snd r)
  | Op_copyHeader source => copyHeader file source
  | Op_copyRecord source => copyRecord file source
  | Op_loadIndex => r <- loadIndex file ;; ret (snd r)
  | Op_loadIndex2 i => r <- loadIndex2 file i ;; ret (snd r)
  | Op_buildIndex m => buildIndex file m ;;; ret file
  | Op_buildIndex2 i m => buildIndex2 file i m ;;; ret file
  | Op_setRegion region => r <- setRegion file region ;; ret (snd r)
  | Op_setRegion_name c s e => r <- setRegion_name file c s e ;; ret (snd r)
  | Op_setRegion_tid t s e => r <- setRegion_tid file t s e ;; ret (snd r)
  | Op_atEnd => ret file
  | Op_readRecord => r <- readRecord file ;; ret (snd r)
  | Op_readRecord_seq record => r <- readRecord_seq record file ;; ret (snd r)
  | Op_readRecord_bam record => r <- readRecord_bam record file ;; ret (snd r)
  | Op_readRegion record => r <- readRegion record file ;; ret (snd r)
  | Op_writeHeader => writeHeader file ;;; ret file
  | Op_writeRecord => writeRecord file ;;; ret file
  | Op_writeRecord_bam record => writeRecord_bam file record ;;; ret file
  end.

(** A sequence of calls on one object. *)
Fixpoint apply_ops (ops : list operation) (file : HtsFile) : M HtsFile :=
  match ops with
  | [] => ret file
  | op :: ops' => file' <- apply_op op file ;; apply_ops ops' file'
  end.

(** [n] calls of [readRecord(file)] in a row, with what each returned. *)
Fixpoint readRecord_times (n : nat) (file : HtsFile)
  : M (list bool * HtsFile) :=
  match n with
  | O => ret ([], file)
  | S n' =>
      r <- readRecord file ;;
      rs <- readRecord_times n' (snd r) ;;
      ret (fst r :: fst rs, snd rs)
  end.

(** *** Reading the history *)

(** The events [destroy_iter] adds. *)
Definition destroy_iter_events (file : HtsFile) : history :=
  if non_null (hts_iter file)
  then [Ev (sam_itr_destroy (hts_iter file)) tt]
  else [].

(** The last call made. *)
Definition last_event (h : history) : option event := List.last (map Some h) None.

(** The interval of the last call if it is a query by region string, read
    with the region grammar. *)
Definition queried_interval (h : history) : option (string * Z * option Z) :=
  match last_event h with
  | Some (Ev (sam_itr_querys _ _ region) _) => region_interval region
  | _ => None
  end.

(** The history at the end of a call, however it ended. *)
Definition outcome_history {A} (o : outcome A) : history :=
  match o with
  | Ret _ h => h
  | Abort h => h
  | Undef h => h
  end.

(** The handles that were handed to [hts_close], in order. *)
Fixpoint closed_handles (h : history) : list ptr :=
  match h with
  | [] => []
  | Ev (hts_close p) _ :: h' => p :: closed_handles h'
  | _ :: h' => closed_handles h'
  end.

(** The calls of the record transcoders from the raw buffer to a record. *)
Fixpoint parse_calls (h : history) : nat :=
  match h with
  | [] => O
  | Ev (seq_parse _ _) _ :: h' => S (parse_calls h')
  | Ev (bam_parse _ _) _ :: h' => S (parse_calls h')
  | _ :: h' => parse_calls h'
  end.

(** The headers that were handed to [bam_hdr_destroy], in order. *)
Fixpoint destroyed_headers (h : history) : list ptr :=
  match h with
  | [] => []
  | Ev (bam_hdr_destroy p) _ :: h' => p :: destroyed_headers h'
  | _ :: h' => destroyed_headers h'
  end.

(** The iterators the index queries handed out, in order. *)
Fixpoint created_iters (h : history) : list ptr :=
  match h with
  | [] => []
  | Ev (sam_itr_querys _ _ _) it :: h' =>
      ((if non_null it then [it] else []) ++ created_iters h')%list
  | Ev (sam_itr_queryi _ _ _ _) it :: h' =>
      ((if non_null it then [it] else []) ++ created_iters h')%list
  | _ :: h' => created_iters h'
  end.

(** The iterators that were handed to [sam_itr_destroy], in order. *)
Fixpoint destroyed_iters (h : history) : list ptr :=
  match h with
  | [] => []
  | Ev (sam_itr_destroy it) _ :: h' => it :: destroyed_iters h'
  | _ :: h' => destroyed_iters h'
  end.

(** The iterator the object holds, if it holds one. *)
Definition held_iter (file : HtsFile) : list ptr :=
  if non_null (hts_iter file) then [hts_iter file] else [].

(** *** Which operation assigns which member *)

Inductive member : Type :=
| M_filename | M_fp | M_hdr | M_hts_record | M_hts_index | M_hts_iter
| M_file_mode | M_at_end.

(** The members an operation has an assignment to. *)
Definition assigns (op : operation) (m : member) : bool :=
  match op, m with
  | Op_open _, (M_filename | M_fp | M_hdr | M_hts_record) => true
  | Op_open_stream, (M_filename | M_fp | M_hdr | M_hts_record) => true
  | Op_copyHeader _, M_hdr => true
  | Op_copyRecord _, M_hts_record => true
  | Op_loadIndex, M_hts_index => true
  | Op_loadIndex2 _, M_hts_index => true
  | Op_setRegion _, M_hts_iter => true
  | Op_setRegion_name _ _ _, M_hts_iter => true
  | Op_setRegion_tid _ _ _, M_hts_iter => true
  | Op_readRecord, M_at_end => true
  | Op_readRecord_seq _, M_at_end => true
  | Op_readRecord_bam _, M_at_end => true
  | _, _ => false
  end.

(** The two objects agree on a member. *)
Definition same_member (m : member) (f f' : HtsFile) : Prop :=
  match m with
  | M_filename => filename f' = filename f
  | M_fp => fp f' = fp f
  | M_hdr => hdr f' = hdr f
  | M_hts_record => hts_record f' = hts_record f
  | M_hts_index => hts_index f' = hts_index f
  | M_hts_iter => hts_iter f' = hts_iter f
  | M_file_mode => file_mode f' = file_mode f
  | M_at_end => at_end f' = at_end f
  end.

(** No operation of the sequence assigns the member. *)
Definition untouched (m : member) (ops : list operation) : bool :=
  forallb (fun op => negb (assigns op m)) ops.

End Hts.

Arguments htsE : clear implicits.
Arguments event : clear implicits.
Arguments history : clear implicits.
Arguments library : clear implicits.
Arguments outcome : clear implicits.
Arguments M : clear implicits.
Arguments operation : clear implicits.
Arguments Ev {HtsSequenceRecord BamAlignmentRecord T} _ _.
Arguments Ret {HtsSequenceRecord BamAlignmentRecord A} _ _.
Arguments Abort {HtsSequenceRecord BamAlignmentRecord A} _.
Arguments Undef {HtsSequenceRecord BamAlignmentRecord A} _.

(** ** A scripted library

    A library for running the code on concrete inputs: the [k]-th call made
    gets the [k]-th number of the script (0 when the script is over), read as
    an address where the call returns a pointer.  The two record types are
    strings, and a transcoder returns the number in decimal.  One rule is not
    scripted: a region query on a null index gives no iterator. *)
Module Script.

Definition answer (script : list Z) (h : history string string) : Z :=
  nth (List.length h) script 0%Z.

Definition scripted (script : list Z) : library string string :=
  fun T h e =>
    let z := answer script h in
    match e in htsE _ _ T return T with
    | hts_open _ _ => Z.to_N z
    | sam_hdr_read _ => Z.to_N z
    | bam_init1 => Z.to_N z
    | bam_hdr_destroy _ => tt
    | hts_close _ => z
    | bam_hdr_dup _ => Z.to_N z
    | bam_dup1 _ => Z.to_N z
    | sam_index_load _ _ => Z.to_N z
    | sam_index_load2 _ _ _ => Z.to_N z
    | sam_index_build _ _ => z
    | sam_index_build2 _ _ _ => z
    | sam_itr_destroy _ => tt
    | sam_itr_querys idx _ _ => if is_null idx then nullptr else Z.to_N z
    | sam_itr_queryi idx _ _ _ => if is_null idx then nullptr else Z.to_N z
    | sam_read1 _ _ _ => z
    | sam_itr_next _ _ _ => z
    | sam_hdr_write _ _ => z
    | sam_write1 _ _ _ => z
    | seq_parse _ _ => dec z
    | bam_parse _ _ => dec z
    | raw_parse _ _ _ => tt
    end.

(** An implementation that keeps one object per distinct literal text. *)
Definition pooled (l : literal) : ptr :=
  match l with
  | Lit_HtsFileOut | Lit_HtsFileOut_f => 4100%N
  | _ => 4096%N
  end.

(** A file open for reading: handle 16, header 32, record buffer 48, no
    index loaded and no region set. *)
Definition reading : HtsFile :=
  mkHtsFile "test.bam" 16%N 32%N 48%N nullptr nullptr
            (lit pooled Lit_HtsFileIn_f) false.

(** The same file with index 64 loaded and the iterator 80 of an earlier
    [setRegion]. *)
Definition iterating : HtsFile :=
  mkHtsFile "test.bam" 16%N 32%N 48%N 64%N 80%N
            (lit pooled Lit_HtsFileIn_f) false.

(** The same file after a [readRecord] that failed. *)
Definition exhausted : HtsFile := set_at_end reading true.

(** A file open for writing BAM, with a header copied into it. *)
Definition writing : HtsFile :=
  mkHtsFile "out.bam" 16%N 32%N 48%N nullptr nullptr
            (lit pooled Lit_HtsFileOut_f) false.

End Script.

(** ** Proof tools *)

Ltac run :=
  unfold apply_op, open_stream, open, HtsFile_new_open, HtsFileIn_new_open,
    HtsFileOut_new_open, HtsFile_open, HtsFile_destroy, copyHeader,
    copyRecord, loadIndex, loadIndex2, buildIndex, buildIndex2, setRegion,
    setRegion_name, setRegion_tid, sprintf_region, destroy_iter,
    destroy_iter_events, readRecord_seq, readRecord_bam, readRecord,
    readRegion, writeHeader, writeRecord_bam, writeRecord, atEnd, bind, call,
    ret, seqan_fail, undefined in *;
  cbn [fst snd fp hdr hts_record hts_index hts_iter file_mode at_end filename
       set_fp set_hdr set_hts_record set_hts_index set_hts_iter set_at_end
       set_filename] in *.

Ltac returned :=
  repeat match goal with
         | H : Ret _ _ = Ret _ _ |- _ => inversion H; subst; clear H
         | H : Abort _ = Ret _ _ |- _ => discriminate H
         | H : Undef _ = Ret _ _ |- _ => discriminate H
         | H : (_, _) = (_, _) |- _ => inversion H; subst; clear H
         end.

Lemma non_null_true (p : ptr) : non_null p = true <-> p <> nullptr.
Proof.
  unfold non_null, is_null. rewrite negb_true_iff, N.eqb_neq. tauto.
Qed.

Lemma non_null_false (p : ptr) : non_null p = false <-> p = nullptr.
Proof.
  unfold non_null, is_null. rewrite negb_false_iff, N.eqb_eq. tauto.
Qed.

Lemma lnot_true (x : Z) : lnot x = true <-> x = 0%Z.
Proof. unfold lnot. apply Z.eqb_eq. Qed.

(** ** Writing records *)

Section Writing.
Context {S B : Type} (lib : library S B).
Implicit Types (f : HtsFile) (h : history S B).

(** What [writeRecord(file)] does: one call of [sam_write1] on the handle,
    the header and the record buffer of the object, and the answer negated. *)
Lemma writeRecord_run f h :
  let w := sam_write1 (fp f) (hdr f) (hts_record f) in
  writeRecord lib f h = Ret (lnot (lib Z h w)) (h ++ [Ev w (lib Z h w)])%list.
Proof. reflexivity. Qed.

(** [writeRecord(file)] returns true exactly when [sam_write1] returned 0. *)
Lemma writeRecord_true_iff_zero f h b h' :
  writeRecord lib f h = Ret b h' ->
  (b = true <-> lib Z h (sam_write1 (fp f) (hdr f) (hts_record f)) = 0%Z).
Proof.
  rewrite writeRecord_run. cbv zeta. intros E. returned. apply lnot_true.
Qed.

(** [writeRecord(file, record)] transcodes the record into the buffer and
    then does what [writeRecord(file)] does. *)
Lemma writeRecord_bam_run f (record : B) h :
  let t := raw_parse (hts_record f) (hdr f) record in
  writeRecord_bam lib f record h =
  writeRecord lib f (h ++ [Ev t (lib unit h t)])%list.
Proof. reflexivity. Qed.

(** C1, on the code: a write that succeeded and wrote bytes (a positive
    status of [sam_write1]) makes [writeRecord(file)] return false, just as a
    write that failed (a negative status) does; only the status 0 gives
    true.  The claim asks for true on every successful write. *)
Theorem writeRecord_false_on_bytes_written f h :
  let w := sam_write1 (fp f) (hdr f) (hts_record f) in
  (0 < lib Z h w)%Z ->
  hts_ok (lib Z h w) = true /\
  writeRecord lib f h = Ret false (h ++ [Ev w (lib Z h w)])%list.
Proof.
  intros w Hpos. split.
  - unfold hts_ok. apply Z.leb_le. lia.
  - rewrite writeRecord_run. fold w.
    replace (lnot (lib Z h w)) with false; [reflexivity|].
    symmetry. unfold lnot. apply Z.eqb_neq. lia.
Qed.

End Writing.

(** C1 at a concrete input: the BAM file of [Script.writing], and a
    [sam_write1] that wrote a record of 36 bytes. *)
Lemma writeRecord_false_on_bytes_written_witness :
  let w := @sam_write1 string string 16%N 32%N 48%N in
  (0 < Script.scripted [36%Z] Z [] w)%Z /\
  hts_ok 36 = true /\
  writeRecord (Script.scripted [36%Z]) Script.writing [] = Ret false [Ev w 36%Z].
Proof.
  split; [reflexivity|].
  apply (writeRecord_false_on_bytes_written (Script.scripted [36%Z])
           Script.writing []).
  reflexivity.
Defined.

(** ** Opening *)

Section Opening.
Context {S B : Type} (lib : library S B) (lit_addr : literal -> ptr).
Implicit Types (f : HtsFile) (h : history S B).

(** [HtsFile::open()] when the mode pointer is [read_mode]: three calls, and
    the header of the object is what the header read returned. *)
Lemma HtsFile_open_read f h b f' h' :
  ptr_eq (file_mode f) (read_mode lit_addr) = true ->
  HtsFile_open lib lit_addr f h = Ret (b, f') h' ->
  b = true /\ fp f' <> nullptr /\
  h' = (h ++ [Ev (hts_open (filename f) (c_text (file_mode f))) (fp f');
              Ev (sam_hdr_read (fp f')) (hdr f');
              Ev bam_init1 (hts_record f')])%list /\
  at_end f' = at_end f.
Proof.
  intros Hmode. run. rewrite Hmode.
  destruct (is_null _) eqn:Hnull; intros E; returned.
  cbn. repeat split.
  - unfold is_null in Hnull. now apply N.eqb_neq in Hnull.
  - rewrite <- !app_assoc. reflexivity.
Qed.

(** [HtsFile::open()] with any other mode pointer: two calls, none of them
    the header read, and the header pointer is not touched. *)
Lemma HtsFile_open_other f h b f' h' :
  ptr_eq (file_mode f) (read_mode lit_addr) = false ->
  HtsFile_open lib lit_addr f h = Ret (b, f') h' ->
  b = true /\ fp f' <> nullptr /\
  h' = (h ++ [Ev (hts_open (filename f) (c_text (file_mode f))) (fp f');
              Ev bam_init1 (hts_record f')])%list /\
  hdr f' = hdr f /\ at_end f' = at_end f.
Proof.
  intros Hmode. run. rewrite Hmode.
  destruct (is_null _) eqn:Hnull; intros E; returned.
  cbn. repeat split.
  - unfold is_null in Hnull. now apply N.eqb_neq in Hnull.
  - rewrite <- !app_assoc. reflexivity.
Qed.

(** C2, amended: a successful [open(target, f)] whose mode is the read
    token ["r"] reads the header as part of the same call, right after the
    stream is opened, and the object's Header is what that read returned: it
    is non-null immediately after [open] returns true exactly when the
    header read gave a header. *)
Theorem open_read_mode_loads_header f fn h b f' h' :
  file_mode f = read_mode lit_addr ->
  open lib lit_addr f fn h = Ret (b, f') h' ->
  b = true /\
  let h1 := (h ++ [Ev (hts_open fn "r") (fp f')])%list in
  hdr f' = lib ptr h1 (sam_hdr_read (fp f')) /\
  (hdr f' <> nullptr <-> lib ptr h1 (sam_hdr_read (fp f')) <> nullptr) /\
  h' = (h1 ++ [Ev (sam_hdr_read (fp f')) (hdr f');
               Ev bam_init1 (hts_record f')])%list.
Proof.
  intros Hmode. unfold open. run. rewrite Hmode.
  unfold ptr_eq. rewrite N.eqb_refl. cbn.
  destruct (is_null _); intros E; returned.
  cbn. split; [reflexivity|]. split; [reflexivity|].
  split; [tauto|]. rewrite <- !app_assoc. reflexivity.
Qed.

(** [HtsFileIn(f)] reads the header when the implementation keeps its
    literal ["r"] and the one of [open()] in one place. *)
Lemma HtsFileIn_loads_header fn h f' h' :
  lit_addr Lit_HtsFileIn_f = lit_addr Lit_read_mode ->
  HtsFileIn_new_open lib lit_addr fn h = Ret f' h' ->
  exists p,
    h' = (h ++ [Ev (hts_open fn "r") p; Ev (sam_hdr_read p) (hdr f');
                Ev bam_init1 (hts_record f')])%list.
Proof.
  intros Hpool. unfold HtsFileIn_new_open, HtsFile_new_open, bind.
  destruct (HtsFile_open _ _ _ _) as [[b f1] h1| |] eqn:E; try discriminate.
  unfold ret. intros R. returned.
  apply HtsFile_open_read in E.
  - exists (fp f'). cbn in E. tauto.
  - unfold ptr_eq, read_mode, lit. cbn. rewrite Hpool. apply N.eqb_refl.
Qed.

End Opening.

(** C2 at a concrete input: a file never opened whose mode is the read
    token, and a library whose [hts_open] gives handle 16, whose header
    read gives header 32 and whose [bam_init1] gives buffer 48. *)
Lemma open_read_mode_loads_header_witness :
  let lib := Script.scripted [16; 32; 48]%Z in
  let f := HtsFileIn_new Script.pooled in
  let f' := mkHtsFile "test.bam" 16%N 32%N 48%N nullptr nullptr
                      (lit Script.pooled Lit_HtsFileIn) false in
  file_mode f = read_mode Script.pooled /\
  open lib Script.pooled f "test.bam" [] =
    Ret (true, f') [Ev (hts_open "test.bam" "r") 16%N;
                    Ev (sam_hdr_read 16%N) 32%N; Ev bam_init1 48%N] /\
  hdr f' = 32%N /\ hdr f' <> nullptr.
Proof.
  cbv zeta. split; [reflexivity|]. split; [reflexivity|].
  destruct (open_read_mode_loads_header (Script.scripted [16; 32; 48]%Z)
              Script.pooled (HtsFileIn_new Script.pooled) "test.bam" [] true
              _ _ eq_refl eq_refl) as [_ [Hread [Hnn _]]].
  split; [exact Hread|]. apply Hnn. discriminate.
Defined.

(** C2 as stated fails, twice.  A file whose header cannot be read
    (["truncated.bam"]: [hts_open] gives handle 16, [sam_hdr_read] gives
    null): [open] in mode ["r"] returns true and the Header is null.  And the
    mode ["rb"], which also opens for reading: [open] returns true, makes no
    header read at all, and the Header is null. *)
Lemma open_read_mode_header_null :
  (let lib := Script.scripted [16; 0; 48]%Z in
   let f' := mkHtsFile "truncated.bam" 16%N nullptr 48%N nullptr nullptr
                       (lit Script.pooled Lit_HtsFileIn) false in
   open lib Script.pooled (HtsFileIn_new Script.pooled) "truncated.bam" []
     = Ret (true, f') [Ev (hts_open "truncated.bam" "r") 16%N;
                       Ev (sam_hdr_read 16%N) nullptr; Ev bam_init1 48%N]
   /\ hdr f' = nullptr) /\
  (let lib := Script.scripted [16; 48]%Z in
   let rb := {| c_addr := 8192%N; c_text := "rb" |} in
   let f' := mkHtsFile "test.bam" 16%N nullptr 48%N nullptr nullptr rb false in
   open lib Script.pooled (HtsFile_new rb) "test.bam" []
     = Ret (true, f') [Ev (hts_open "test.bam" "rb") 16%N; Ev bam_init1 48%N]
   /\ hdr f' = nullptr).
Proof.
  repeat split.
Qed.

(** ** Region strings *)

Lemma split_at_first (c : ascii) (l r : string) :
  occurs c l = false -> split_at c (l ++ String c r) = Some (l, r).
Proof.
  induction l as [|a l IH]; cbn.
  - intros _. now rewrite Ascii.eqb_refl.
  - intros H. apply orb_false_iff in H as [Ha Hl].
    rewrite Ha, (IH Hl). reflexivity.
Qed.

Lemma split_at_none (c : ascii) (s : string) :
  occurs c s = false -> split_at c s = None.
Proof.
  induction s as [|a s IH]; cbn; [reflexivity|].
  intros H. apply orb_false_iff in H as [Ha Hs].
  now rewrite Ha, (IH Hs).
Qed.

(** The digits of an unsigned decimal number hold no minus sign. *)
Lemma digits_no_minus (d : Decimal.uint) :
  occurs "-" (NilEmpty.string_of_uint d) = false.
Proof.
  induction d; cbn; auto.
Qed.

Lemma dec_nonneg (z : Z) :
  (0 <= z)%Z ->
  exists d, d <> Decimal.Nil /\ dec z = NilEmpty.string_of_uint d /\
            Z.of_uint d = z.
Proof.
  intros Hz. destruct z as [|p|p]; [| |lia].
  - exists (Decimal.D0 Decimal.Nil). repeat split. discriminate.
  - exists (Pos.to_uint p). split; [apply Unsigned.to_uint_nonnil|]. split.
    + unfold dec. cbn. unfold NilZero.string_of_uint.
      destruct (Pos.to_uint p) eqn:E; try reflexivity.
      now apply Unsigned.to_uint_nonnil in E.
    + unfold Z.of_uint. now rewrite Unsigned.of_to.
Qed.

Lemma dec_no_minus (z : Z) : (0 <= z)%Z -> occurs "-" (dec z) = false.
Proof.
  intros Hz. destruct (dec_nonneg z Hz) as [d [_ [-> _]]].
  apply digits_no_minus.
Qed.

(** Reading back a coordinate that [%d] printed. *)
Lemma coord_dec (z : Z) : (0 <= z)%Z -> coord (dec z) = Some z.
Proof.
  intros Hz. destruct (dec_nonneg z Hz) as [d [Hd [E Hv]]].
  unfold coord. rewrite E.
  replace (NilEmpty.string_of_uint d) with (NilZero.string_of_uint d)
    by (destruct d; [contradiction|reflexivity ..]).
  rewrite (NilZero.usu d Hd). cbn. now rewrite Hv.
Qed.

(** The region string of [sprintf], read with the region grammar: the first
    coordinate is taken as 1-based, and the interval is
    [[start - 1, end_)]. *)
Lemma region_string_interval (chromosome : string) (start end_ : Z) :
  occurs ":" chromosome = false -> (0 <= start)%Z -> (0 <= end_)%Z ->
  region_interval (region_string chromosome start end_)
  = Some (chromosome, (start - 1)%Z, Some end_).
Proof.
  intros Hname Hs He. unfold region_interval, region_string.
  change (chromosome ++ ":" ++ dec start ++ "-" ++ dec end_)
    with (chromosome ++ String ":" (dec start ++ String "-" (dec end_))).
  rewrite (split_at_first _ _ _ Hname).
  rewrite (split_at_first _ _ _ (dec_no_minus _ Hs)).
  now rewrite (coord_dec _ Hs), (coord_dec _ He).
Qed.

(** ** Setting a region *)

Local Open Scope list_scope.

Section Regions.
Context {S B : Type} (lib : library S B).
Implicit Types (f : HtsFile) (h : history S B).

Lemma last_event_app h (e : event S B) : last_event (h ++ [e]) = Some e.
Proof.
  unfold last_event. rewrite map_app. cbn [map]. apply last_last.
Qed.

(** The guarded [sam_itr_destroy] at the head of the three [setRegion]. *)
Lemma destroy_iter_run f h :
  destroy_iter lib f h = Ret tt (h ++ destroy_iter_events f)%list.
Proof.
  unfold destroy_iter, destroy_iter_events, call, ret.
  destruct (non_null (hts_iter f)).
  - now destruct (lib unit h _).
  - now rewrite app_nil_r.
Qed.

Lemma setRegion_run f region h :
  let h1 := (h ++ destroy_iter_events f)%list in
  let q := sam_itr_querys (hts_index f) (hdr f) region in
  setRegion lib f region h
  = Ret (non_null (lib ptr h1 q), set_hts_iter f (lib ptr h1 q))
        (h1 ++ [Ev q (lib ptr h1 q)])%list.
Proof.
  cbv zeta. unfold setRegion, bind. rewrite destroy_iter_run. reflexivity.
Qed.

Lemma setRegion_tid_run f tid start end_ h :
  let h1 := (h ++ destroy_iter_events f)%list in
  let q := sam_itr_queryi (hts_index f) tid start end_ in
  setRegion_tid lib f tid start end_ h
  = Ret (non_null (lib ptr h1 q), set_hts_iter f (lib ptr h1 q))
        (h1 ++ [Ev q (lib ptr h1 q)])%list.
Proof.
  cbv zeta. unfold setRegion_tid, bind. rewrite destroy_iter_run. reflexivity.
Qed.

(** [setRegion(file, chromosome, start, end)] is [setRegion(file, region)]
    on the string that [sprintf] wrote, as long as the string fits the
    buffer; when it does not, the write runs past the buffer. *)
Lemma setRegion_name_run f chromosome start end_ h :
  setRegion_name lib f chromosome start end_ h
  = if fits_region_buffer (region_string chromosome start end_)
    then setRegion lib f (region_string chromosome start end_) h
    else Undef (h ++ destroy_iter_events f)%list.
Proof.
  unfold setRegion_name, setRegion, sprintf_region, bind.
  rewrite destroy_iter_run.
  now destruct (fits_region_buffer _).
Qed.

(** C3, on the code: [setRegion(file, name, start, end)] writes its
    coordinates into the region string [name:start-end] and queries the index
    by that string.  The string form is 1-based inclusive, so the interval
    queried is the 0-based half-open [[start - 1, end)], one position to the
    left of the [[start, end)] of the claim; the sibling
    [setRegion(file, id, start, end)] hands the same two coordinates
    unchanged to the query by coordinates. *)
Theorem setRegion_name_queries_one_based f chromosome tid start end_ h :
  occurs ":" chromosome = false -> (1 <= start)%Z -> (0 <= end_)%Z ->
  fits_region_buffer (region_string chromosome start end_) = true ->
  let h1 := h ++ destroy_iter_events f in
  let qs := sam_itr_querys (hts_index f) (hdr f)
              (region_string chromosome start end_) in
  let qi := sam_itr_queryi (hts_index f) tid start end_ in
  setRegion_name lib f chromosome start end_ h
  = Ret (non_null (lib ptr h1 qs), set_hts_iter f (lib ptr h1 qs))
        (h1 ++ [Ev qs (lib ptr h1 qs)]) /\
  region_interval (region_string chromosome start end_)
  = Some (chromosome, (start - 1)%Z, Some end_) /\
  region_interval (region_string chromosome start end_)
  <> Some (chromosome, start, Some end_) /\
  setRegion_tid lib f tid start end_ h
  = Ret (non_null (lib ptr h1 qi), set_hts_iter f (lib ptr h1 qi))
        (h1 ++ [Ev qi (lib ptr h1 qi)]).
Proof.
  intros Hname Hs He Hfit. cbv zeta.
  assert (Hint : region_interval (region_string chromosome start end_)
                 = Some (chromosome, (start - 1)%Z, Some end_))
    by (apply region_string_interval; auto; lia).
  split; [|split; [|split]].
  - rewrite setRegion_name_run, Hfit. apply setRegion_run.
  - exact Hint.
  - rewrite Hint. intros E. injection E as E. lia.
  - apply setRegion_tid_run.
Qed.

(** C4, on the code: each of the three [setRegion] first destroys the
    iterator the file holds, whenever it holds one.  When the index query
    then gives no iterator, [setRegion(file, region)] and
    [setRegion(file, id, start, end)] return false and leave the file with no
    iterator, and so does [setRegion(file, name, start, end)] when the
    region string fits [char region[50]].  When it does not fit, that
    overload destroys the iterator and then writes past the buffer: it makes
    no query, returns nothing and never reaches the assignment that would
    clear the iterator. *)
Theorem setRegion_destroys_previous_iterator f h :
  let h1 := h ++ destroy_iter_events f in
  (forall region,
     let q := sam_itr_querys (hts_index f) (hdr f) region in
     lib ptr h1 q = nullptr ->
     setRegion lib f region h
     = Ret (false, set_hts_iter f nullptr) (h1 ++ [Ev q nullptr])) /\
  (forall tid start end_,
     let q := sam_itr_queryi (hts_index f) tid start end_ in
     lib ptr h1 q = nullptr ->
     setRegion_tid lib f tid start end_ h
     = Ret (false, set_hts_iter f nullptr) (h1 ++ [Ev q nullptr])) /\
  (forall chromosome start end_,
     let q := sam_itr_querys (hts_index f) (hdr f)
                (region_string chromosome start end_) in
     fits_region_buffer (region_string chromosome start end_) = true ->
     lib ptr h1 q = nullptr ->
     setRegion_name lib f chromosome start end_ h
     = Ret (false, set_hts_iter f nullptr) (h1 ++ [Ev q nullptr])) /\
  (forall chromosome start end_,
     fits_region_buffer (region_string chromosome start end_) = false ->
     setRegion_name lib f chromosome start end_ h = Undef h1).
Proof.
  cbv zeta. split; [|split; [|split]].
  - intros region Hnull. rewrite setRegion_run. cbv zeta.
    now rewrite Hnull.
  - intros tid s e Hnull. rewrite setRegion_tid_run. cbv zeta.
    now rewrite Hnull.
  - intros c s e Hfit Hnull. rewrite setRegion_name_run, Hfit, setRegion_run.
    cbv zeta. now rewrite Hnull.
  - intros c s e Hfit. now rewrite setRegion_name_run, Hfit.
Qed.

(** The three [setRegion] and their return: the first and the third always
    return; the one that formats the region returns when the region string
    fits its buffer, and otherwise writes past it, after the old iterator
    was destroyed. *)
Lemma setRegion_returns f h :
  (forall region, exists b f' h', setRegion lib f region h = Ret (b, f') h') /\
  (forall tid start end_, exists b f' h',
     setRegion_tid lib f tid start end_ h = Ret (b, f') h') /\
  (forall chromosome start end_,
     if fits_region_buffer (region_string chromosome start end_)
     then exists b f' h',
            setRegion_name lib f chromosome start end_ h = Ret (b, f') h'
     else setRegion_name lib f chromosome start end_ h
          = Undef (h ++ destroy_iter_events f)).
Proof.
  split; [|split].
  - intros region. rewrite setRegion_run. cbv zeta. eauto.
  - intros tid s e. rewrite setRegion_tid_run. cbv zeta. eauto.
  - intros c s e. rewrite setRegion_name_run.
    destruct (fits_region_buffer _); [|reflexivity].
    rewrite setRegion_run. cbv zeta. eauto.
Qed.

End Regions.

(** C3 at the failing input, the scenario of the spec: the file of
    [Script.iterating] and [setRegion(file, "chr1", 1000, 2000)]. *)
Lemma setRegion_name_queries_one_based_witness :
  let lib := Script.scripted [0; 96]%Z in
  let h' := [Ev (sam_itr_destroy 80%N) tt;
             Ev (sam_itr_querys 64%N 32%N "chr1:1000-2000") 96%N] in
  setRegion_name lib Script.iterating "chr1" 1000 2000 []
    = Ret (true, set_hts_iter Script.iterating 96%N) h' /\
  region_interval "chr1:1000-2000" = Some ("chr1", 999%Z, Some 2000%Z) /\
  region_interval "chr1:1000-2000" <> Some ("chr1", 1000%Z, Some 2000%Z).
Proof.
  cbv zeta.
  destruct (setRegion_name_queries_one_based
              (Script.scripted [0; 96]%Z) Script.iterating
              "chr1" 0%Z 1000%Z 2000%Z [] eq_refl) as [Hrun [Hint [Hne _]]].
  - lia.
  - lia.
  - reflexivity.
  - split; [exact Hrun|]. split; [exact Hint|exact Hne].
Defined.

(** The same input run through: the index is asked for ["chr1:1000-2000"],
    whose interval is [[999, 2000)]; a record aligned to the single position
    999 lies in the interval queried and does not overlap [[1000, 2000)]. *)
Lemma setRegion_name_not_zero_based :
  let lib := Script.scripted [0; 96]%Z in
  let h' := [Ev (sam_itr_destroy 80%N) tt;
             Ev (sam_itr_querys 64%N 32%N "chr1:1000-2000") 96%N] in
  setRegion_name lib Script.iterating "chr1" 1000 2000 []
    = Ret (true, set_hts_iter Script.iterating 96%N) h' /\
  queried_interval h' = Some ("chr1", 999%Z, Some 2000%Z) /\
  queried_interval h' <> Some ("chr1", 1000%Z, Some 2000%Z) /\
  overlaps 999 1000 999 2000 = true /\
  overlaps 999 1000 1000 2000 = false.
Proof.
  cbv zeta. repeat split. discriminate.
Qed.

(** C4 at the failing input: the file of [Script.iterating], which holds
    iterator 80, and a reference name of 43 characters that the header does
    not have.  The region string has 53 characters; iterator 80 is destroyed
    and the call ends in the overrun.  With the short name ["chrZ"] the query
    is made, gives no iterator, and the call returns false with no
    iterator. *)
Lemma setRegion_destroys_previous_iterator_witness :
  let lib := Script.scripted [0; 0]%Z in
  let long := "chrUn_unplaced_scaffold_KI270742v1_decoy_42" in
  String.length long = 43%nat /\
  fits_region_buffer (region_string long 1000 2000) = false /\
  setRegion_name lib Script.iterating long 1000 2000 []
    = Undef [Ev (sam_itr_destroy 80%N) tt] /\
  setRegion_name lib Script.iterating "chrZ" 1000 2000 []
    = Ret (false, set_hts_iter Script.iterating nullptr)
          [Ev (sam_itr_destroy 80%N) tt;
           Ev (sam_itr_querys 64%N 32%N "chrZ:1000-2000") nullptr].
Proof.
  cbv zeta.
  destruct (setRegion_destroys_previous_iterator
              (Script.scripted [0; 0]%Z) Script.iterating [])
    as [_ [_ [Hfits Hover]]].
  split; [reflexivity|]. split; [reflexivity|]. split.
  - exact (Hover "chrUn_unplaced_scaffold_KI270742v1_decoy_42"
                 1000%Z 2000%Z eq_refl).
  - exact (Hfits "chrZ" 1000%Z 2000%Z eq_refl eq_refl).
Defined.

(** ** The flag and the object across the operations *)

Section Operations.
Context {S B : Type} (lib : library S B) (lit_addr : literal -> ptr).
Implicit Types (f : HtsFile) (h : history S B) (op : operation S B).

Ltac branches :=
  repeat match goal with
         | |- context [if ?c then _ else _] => destruct c; cbn
         end.

(** One operation and [at_end]: nothing but the three sequential
    [readRecord] writes the flag, and they only ever write true. *)
Lemma apply_op_at_end op f h f' h' :
  apply_op lib lit_addr op f h = Ret f' h' ->
  (is_readRecord op = false -> at_end f' = at_end f) /\
  (at_end f = true -> at_end f' = true).
Proof.
  destruct op; run; branches; intros E; returned; cbn; auto;
    split; auto; discriminate.
Qed.

(** The two [buildIndex] only read the object. *)
Lemma buildIndex_keeps_object op f h f' h' :
  (exists m, op = Op_buildIndex m) \/ (exists i m, op = Op_buildIndex2 i m) ->
  apply_op lib lit_addr op f h = Ret f' h' -> f' = f.
Proof.
  intros [[m ->]|[i [m ->]]]; run; intros E; now returned.
Qed.

End Operations.

(** ** The index *)

Section Index.
Context {S B : Type} (lib : library S B) (lit_addr : literal -> ptr).
Implicit Types (f : HtsFile) (h : history S B).

(** C5, amended: the Index is usable after a successful [loadIndex]: the
    call returns true exactly when the object now holds a non-null index,
    the one the load returned.  [buildIndex] only has the index written for
    the file name and leaves the object, its index pointer included, as it
    was.  [setRegion] has no guard of its own: it hands the index pointer the
    object holds, null or not, to the query, and returns what the query
    gives. *)
Theorem index_held_after_load_only f h :
  (forall b f' h',
     loadIndex lib f h = Ret (b, f') h' ->
     hts_index f' = lib ptr h (sam_index_load (fp f) (filename f)) /\
     (b = true <-> hts_index f' <> nullptr)) /\
  (forall i b f' h',
     loadIndex2 lib f i h = Ret (b, f') h' ->
     hts_index f' = lib ptr h (sam_index_load2 (fp f) (filename f) i) /\
     (b = true <-> hts_index f' <> nullptr)) /\
  (forall m b h',
     buildIndex lib f m h = Ret b h' ->
     (b = true <-> lib Z h (sam_index_build (filename f) m) = 0%Z) /\
     forall f'' h'',
       apply_op lib lit_addr (Op_buildIndex m) f h = Ret f'' h'' -> f'' = f) /\
  (forall i m b h',
     buildIndex2 lib f i m h = Ret b h' ->
     (b = true <-> lib Z h (sam_index_build2 (filename f) i m) = 0%Z) /\
     forall f'' h'',
       apply_op lib lit_addr (Op_buildIndex2 i m) f h = Ret f'' h'' ->
       f'' = f) /\
  (forall region b f' h',
     setRegion lib f region h = Ret (b, f') h' ->
     last_event h'
     = Some (Ev (sam_itr_querys (hts_index f) (hdr f) region) (hts_iter f')) /\
     (b = true <-> hts_iter f' <> nullptr)).
Proof.
  repeat split.
  - revert H. run. intros E. now returned.
  - revert H. run. intros E. returned. cbn. apply non_null_true.
  - revert H. run. intros E. returned. cbn. apply non_null_true.
  - revert H. run. intros E. now returned.
  - revert H. run. intros E. returned. cbn. apply non_null_true.
  - revert H. run. intros E. returned. cbn. apply non_null_true.
  - revert H. run. intros E. returned. apply lnot_true.
  - revert H. run. intros E. returned. apply lnot_true.
  - intros f'' h''. apply buildIndex_keeps_object. left. now exists m.
  - revert H. run. intros E. returned. apply lnot_true.
  - revert H. run. intros E. returned. apply lnot_true.
  - intros f'' h''. apply buildIndex_keeps_object. right. now exists i, m.
  - revert H. rewrite setRegion_run. cbv zeta. intros E. returned.
    now rewrite last_event_app.
  - revert H. rewrite setRegion_run. cbv zeta. intros E. returned.
    cbn. apply non_null_true.
  - revert H. rewrite setRegion_run. cbv zeta. intros E. returned.
    cbn. apply non_null_true.
Qed.

End Index.

(** C5 at a concrete input: on the file of [Script.reading], [loadIndex]
    returns index 64 and then [setRegion] finds iterator 96. *)
Lemma index_held_after_load_only_witness :
  let lib := Script.scripted [64; 96]%Z in
  let f1 := set_hts_index Script.reading 64%N in
  let h1 := [@Ev string string _ (sam_index_load 16%N "test.bam") 64%N] in
  loadIndex lib Script.reading [] = Ret (true, f1) h1 /\
  setRegion lib f1 "chr1" h1
    = Ret (true, set_hts_iter f1 96%N)
          (h1 ++ [Ev (sam_itr_querys 64%N 32%N "chr1") 96%N]) /\
  hts_index f1 = 64%N /\ (true = true <-> hts_index f1 <> nullptr).
Proof.
  cbv zeta. split; [reflexivity|]. split; [reflexivity|].
  apply (proj1 (index_held_after_load_only (Script.scripted [64; 96]%Z)
                  Script.pooled Script.reading [])
           true (set_hts_index Script.reading 64%N)
           [Ev (sam_index_load 16%N "test.bam") 64%N]).
  reflexivity.
Defined.

(** C5 as stated fails: on the file of [Script.reading], whose index was
    never loaded, [buildIndex] succeeds and returns true, the index pointer
    of the object stays null, and every [setRegion] after it queries with the
    null index and returns false.  The same library gives an iterator once
    the index has been loaded (the witness above). *)
Lemma setRegion_fails_after_buildIndex :
  let lib := Script.scripted [0; 96]%Z in
  let h1 := [@Ev string string _ (sam_index_build "test.bam" 0) 0%Z] in
  buildIndex lib Script.reading 0 [] = Ret true h1 /\
  hts_index Script.reading = nullptr /\
  forall region,
    setRegion lib Script.reading region h1
    = Ret (false, Script.reading)
          (h1 ++ [Ev (sam_itr_querys nullptr 32%N region) nullptr]).
Proof.
  cbv zeta. repeat split.
Qed.

(** ** Reading *)

Section Reading.
Context {S B : Type} (lib : library S B) (lit_addr : literal -> ptr).
Implicit Types (f : HtsFile) (h : history S B).

(** What [readRecord(file)] does: one call of [sam_read1]; a non-negative
    status gives true and the object as it was, a negative one sets the flag
    and gives false. *)
Lemma readRecord_run f h :
  let r := sam_read1 (fp f) (hdr f) (hts_record f) in
  readRecord lib f h
  = Ret (if (0 <=? lib Z h r)%Z then (true, f) else (false, set_at_end f true))
        (h ++ [Ev r (lib Z h r)]).
Proof.
  cbv zeta. run. now destruct (0 <=? _)%Z.
Qed.

Lemma readRecord_keeps_flag_up f h b f' h' :
  readRecord lib f h = Ret (b, f') h' ->
  at_end f = true -> at_end f' = true.
Proof.
  rewrite readRecord_run. cbv zeta.
  destruct (0 <=? _)%Z; intros E; returned; auto.
Qed.



(** C7, amended: once the flag is true no operation of the header puts it
    back to false, [open] on the same object included: after any sequence of
    operations that returns, the flag is still true. *)
Theorem at_end_stays_true ops f h f' h' :
  at_end f = true ->
  apply_ops lib lit_addr ops f h = Ret f' h' ->
  at_end f' = true.
Proof.
  revert f h. induction ops as [|op ops IH]; intros f h Hf; cbn.
  - unfold ret. intros E. now returned.
  - unfold bind.
    destruct (apply_op lib lit_addr op f h) as [f1 h1| |] eqn:E1;
      try discriminate.
    apply IH. now apply (apply_op_at_end _ _ _ _ _ _ _ E1).
Qed.

(** C9: [readRegion] always returns and hands back the object it was
    given, so the flag is as it was whether it returns true or false; and
    so it is after every operation of the header that is not one of the
    three sequential [readRecord]. *)
Theorem readRegion_keeps_at_end f h :
  (forall record, exists b record' h',
     readRegion lib record f h = Ret (b, record', f) h') /\
  (forall record b record' f' h',
     readRegion lib record f h = Ret (b, record', f') h' ->
     atEnd f' = atEnd f) /\
  (forall op f' h',
     is_readRecord op = false ->
     apply_op lib lit_addr op f h = Ret f' h' ->
     atEnd f' = atEnd f).
Proof.
  split; [|split].
  - intros record. run. destruct (0 <=? _)%Z; eauto.
  - intros record b record' f' h'. run.
    destruct (0 <=? _)%Z; intros E; now returned.
  - intros op f' h' Hop E. unfold atEnd.
    now apply (apply_op_at_end _ _ _ _ _ _ _ E).
Qed.

(** The three reads into a record always return. *)
Lemma record_reads_return f h :
  (forall record : S, exists b record' f' h',
     readRecord_seq lib record f h = Ret (b, record', f') h') /\
  (forall record : B, exists b record' f' h',
     readRecord_bam lib record f h = Ret (b, record', f') h') /\
  (forall record : S, exists b record' f' h',
     readRegion lib record f h = Ret (b, record', f') h').
Proof.
  repeat split; intros record; run; destruct (0 <=? _)%Z; cbn; eauto.
Qed.

Lemma parse_calls_app h h2 :
  parse_calls (h ++ h2) = (parse_calls h + parse_calls h2)%nat.
Proof.
  induction h as [|[T e r] h IH]; [reflexivity|].
  destruct e; cbn; now rewrite ?IH.
Qed.

(** C10: when one of the three reads into a record returns false, the record
    the caller gave comes back as it was, and no transcoder was called. *)
Theorem failed_read_keeps_record f h :
  (forall (record record' : S) f' h',
     readRecord_seq lib record f h = Ret (false, record', f') h' ->
     record' = record /\ parse_calls h' = parse_calls h) /\
  (forall (record record' : B) f' h',
     readRecord_bam lib record f h = Ret (false, record', f') h' ->
     record' = record /\ parse_calls h' = parse_calls h) /\
  (forall (record record' : S) f' h',
     readRegion lib record f h = Ret (false, record', f') h' ->
     record' = record /\ parse_calls h' = parse_calls h).
Proof.
  repeat split; revert H; run; destruct (0 <=? _)%Z; cbn; intros E;
    returned; auto; rewrite parse_calls_app; cbn; lia.
Qed.

End Reading.



(** C7 at a concrete input: the exhausted file is opened again, read from
    and given a region; the flag is true at the end. *)
Lemma at_end_stays_true_witness :
  let lib := Script.scripted [17; 33; 49; 0; 0]%Z in
  let ops := [Op_open "test.bam"; Op_readRecord; Op_setRegion "chr1"] in
  let f' := mkHtsFile "test.bam" 17%N 33%N 49%N nullptr nullptr
                      (lit Script.pooled Lit_HtsFileIn_f) true in
  let h' := [Ev (hts_open "test.bam" "r") 17%N; Ev (sam_hdr_read 17%N) 33%N;
             Ev bam_init1 49%N; Ev (sam_read1 17%N 33%N 49%N) 0%Z;
             Ev (sam_itr_querys nullptr 33%N "chr1") nullptr] in
  at_end Script.exhausted = true /\
  apply_ops lib Script.pooled ops Script.exhausted [] = Ret f' h' /\
  at_end f' = true.
Proof.
  cbv zeta. split; [reflexivity|]. split; [reflexivity|].
  apply (at_end_stays_true (Script.scripted [17; 33; 49; 0; 0]%Z) Script.pooled
           [Op_open "test.bam"; Op_readRecord; Op_setRegion "chr1"]
           Script.exhausted []
           (mkHtsFile "test.bam" 17%N 33%N 49%N nullptr nullptr
                      (lit Script.pooled Lit_HtsFileIn_f) true)
           [Ev (hts_open "test.bam" "r") 17%N; Ev (sam_hdr_read 17%N) 33%N;
            Ev bam_init1 49%N; Ev (sam_read1 17%N 33%N 49%N) 0%Z;
            Ev (sam_itr_querys nullptr 33%N "chr1") nullptr]).
  - reflexivity.
  - reflexivity.
Defined.

(** C7 as stated fails: [open] on the exhausted object succeeds, reads the
    header again, and leaves the flag true: [atEnd] holds on a file just
    opened. *)
Lemma open_keeps_at_end :
  let lib := Script.scripted [17; 33; 49]%Z in
  let f' := mkHtsFile "test.bam" 17%N 33%N 49%N nullptr nullptr
                      (lit Script.pooled Lit_HtsFileIn_f) true in
  atEnd Script.exhausted = true /\
  open lib Script.pooled Script.exhausted "test.bam" []
    = Ret (true, f') [Ev (hts_open "test.bam" "r") 17%N;
                      Ev (sam_hdr_read 17%N) 33%N; Ev bam_init1 49%N] /\
  atEnd f' = true /\ atEnd f' <> false.
Proof.
  cbv zeta. repeat split. discriminate.
Qed.

(** C9 at a concrete input: an exhausted file with a region set; a
    [readRegion] that finds a record and a [loadIndex] both leave the flag
    as it was. *)
Lemma readRegion_keeps_at_end_witness :
  let lib := Script.scripted [0; 7]%Z in
  let f := set_at_end Script.iterating true in
  readRegion lib "old" f []
    = Ret (true, "7", f) [Ev (sam_itr_next 16%N 80%N 48%N) 0%Z;
                          Ev (seq_parse "old" 48%N) "7"] /\
  atEnd f = true /\
  apply_op lib Script.pooled Op_loadIndex f []
    = Ret (set_hts_index f nullptr)
          [Ev (sam_index_load 16%N "test.bam") nullptr] /\
  atEnd (set_hts_index f nullptr) = atEnd f.
Proof.
  cbv zeta.
  pose proof (readRegion_keeps_at_end (Script.scripted [0; 7]%Z) Script.pooled
                (set_at_end Script.iterating true) []) as [_ [Hregion Hop]].
  split; [reflexivity|]. split.
  - exact (Hregion "old" true "7" _ _ eq_refl).
  - split; [reflexivity|].
    exact (Hop Op_loadIndex (set_hts_index _ nullptr) _ eq_refl eq_refl).
Defined.

(** C10 at a concrete input: the file of [Script.reading] at the end of its
    data, and a caller's record ["old"]. *)
Lemma failed_read_keeps_record_witness :
  let lib := Script.scripted [-1]%Z in
  let h' := [@Ev string string _ (sam_read1 16%N 32%N 48%N) (-1)%Z] in
  readRecord_seq lib "old" Script.reading []
    = Ret (false, "old", Script.exhausted) h' /\
  "old" = "old" /\ parse_calls h' = @parse_calls string string [].
Proof.
  cbv zeta. split; [reflexivity|].
  apply (proj1 (failed_read_keeps_record (Script.scripted [-1]%Z)
                  Script.reading [])
           "old" "old" Script.exhausted).
  reflexivity.
Defined.

(** ** Teardown *)

Section Teardown.
Context {S B : Type} (lib : library S B).
Implicit Types (f : HtsFile) (h : history S B).

Lemma closed_handles_app h h2 :
  closed_handles (h ++ h2) = closed_handles h ++ closed_handles h2.
Proof.
  induction h as [|[T e r] h IH]; [reflexivity|].
  destruct e; cbn; now rewrite ?IH.
Qed.

(** What [~HtsFile()] does. *)
Lemma HtsFile_destroy_run f h :
  let h1 := h ++ [Ev (bam_hdr_destroy (hdr f)) tt] in
  HtsFile_destroy lib f h
  = Ret tt (h1 ++ [Ev (hts_close (fp f)) (lib Z h1 (hts_close (fp f)))]).
Proof.
  cbv zeta. run. now destruct (lib unit h _).
Qed.

(** What [~HtsFile()] does, on any object: it hands the header to
    [bam_hdr_destroy] and then the stream handle to [hts_close], in that
    order, once each and without any test of the two pointers; on an object
    that was never opened both calls are made with the null pointer. *)
Lemma HtsFile_destroy_header_then_handle f h :
  (exists r,
     HtsFile_destroy lib f h
     = Ret tt (h ++ [Ev (bam_hdr_destroy (hdr f)) tt; Ev (hts_close (fp f)) r]))
  /\
  (forall mode, exists r,
     HtsFile_destroy lib (HtsFile_new mode) h
     = Ret tt (h ++ [Ev (bam_hdr_destroy nullptr) tt;
                     Ev (hts_close nullptr) r])).
Proof.
  split.
  - eexists. rewrite HtsFile_destroy_run. cbv zeta.
    rewrite <- app_assoc. reflexivity.
  - intros mode. eexists. rewrite HtsFile_destroy_run. cbv zeta.
    rewrite <- app_assoc. reflexivity.
Qed.

End Teardown.

(** ** Sequences of operations: members, releases, iterators *)

Ltac cases :=
  repeat match goal with
         | |- context [if ?c then _ else _] => destruct c; cbn
         end.

Section Sequences.
Context {S B : Type} (lib : library S B) (lit_addr : literal -> ptr).
Implicit Types (f : HtsFile) (h : history S B) (op : operation S B)
  (m : member).

Lemma destroyed_headers_app h h2 :
  destroyed_headers (h ++ h2) = destroyed_headers h ++ destroyed_headers h2.
Proof.
  induction h as [|[T e r] h IH]; [reflexivity|].
  destruct e; cbn; now rewrite ?IH.
Qed.

Lemma created_iters_app h h2 :
  created_iters (h ++ h2) = created_iters h ++ created_iters h2.
Proof.
  induction h as [|[T e r] h IH]; [reflexivity|].
  destruct e; cbn; rewrite ?IH, <- ?app_assoc; reflexivity.
Qed.

Lemma destroyed_iters_app h h2 :
  destroyed_iters (h ++ h2) = destroyed_iters h ++ destroyed_iters h2.
Proof.
  induction h as [|[T e r] h IH]; [reflexivity|].
  destruct e; cbn; now rewrite ?IH.
Qed.

Lemma same_member_refl m f : same_member m f f.
Proof. now destruct m. Qed.

Lemma same_member_trans m f f1 f2 :
  same_member m f f1 -> same_member m f1 f2 -> same_member m f f2.
Proof. destruct m; cbn; congruence. Qed.

(** One operation leaves every member it has no assignment to as it was. *)
Lemma apply_op_frame op m f h f' h' :
  assigns op m = false ->
  apply_op lib lit_addr op f h = Ret f' h' ->
  same_member m f f'.
Proof.
  destruct op, m; cbn [assigns]; try discriminate; intros _;
    run; cases; intros E; returned; reflexivity.
Qed.

(** One operation, however it ends, hands nothing to [hts_close] and
    nothing to [bam_hdr_destroy]. *)
Lemma apply_op_releases_nothing op f h :
  let o := apply_op lib lit_addr op f h in
  closed_handles (outcome_history o) = closed_handles h /\
  destroyed_headers (outcome_history o) = destroyed_headers h.
Proof.
  cbv zeta. destruct op; run; cases; cbn [outcome_history];
    rewrite ?closed_handles_app, ?destroyed_headers_app; cbn;
    rewrite ?app_nil_r; auto.
Qed.

(** One operation and the iterators, by what it adds to the history: the
    iterators it destroys, followed by the one the object holds after it, are
    the one the object held before it followed by the ones its queries
    handed out. *)
Lemma apply_op_iterators op f h f' h' :
  apply_op lib lit_addr op f h = Ret f' h' ->
  exists t,
    h' = h ++ t /\
    destroyed_iters t ++ held_iter f' = held_iter f ++ created_iters t.
Proof.
  destruct op; run; destruct (non_null (hts_iter f)) eqn:Hheld; cases;
    intros E; returned;
    first [ exists []; split; [symmetry; apply app_nil_r|]
          | rewrite <- ?app_assoc; eexists; split; [reflexivity|] ];
    unfold held_iter; cbn; rewrite ?Hheld;
    repeat match goal with
           | |- context [non_null ?x] => destruct (non_null x)
           end; reflexivity.
Qed.

(** X1: through any sequence of operations that returns, a member of the
    object that no operation of the sequence has an assignment to is what it
    was.  No operation assigns [file_mode]: the mode an object was
    constructed with is the mode of every later [open]. *)
Theorem apply_ops_frame ops f h f' h' :
  apply_ops lib lit_addr ops f h = Ret f' h' ->
  file_mode f' = file_mode f /\
  (forall m, untouched m ops = true -> same_member m f f').
Proof.
  intros E.
  assert (Hall : forall m, untouched m ops = true -> same_member m f f').
  { intros m. revert f h E. induction ops as [|op ops IH]; intros f h E Hm.
    - cbn in E. unfold ret in E. returned. apply same_member_refl.
    - cbn in E, Hm. unfold bind in E.
      destruct (apply_op lib lit_addr op f h) as [f1 h1| |] eqn:E1;
        try discriminate.
      apply andb_true_iff in Hm as [Hop Hops].
      apply negb_true_iff in Hop.
      apply (same_member_trans m f f1 f').
      + exact (apply_op_frame _ _ _ _ _ _ Hop E1).
      + exact (IH f1 h1 E Hops). }
  split; [|exact Hall].
  apply (Hall M_file_mode). unfold untouched. apply forallb_forall.
  intros op _. now destruct op.
Qed.

(** X2: no sequence of operations, however it ends, hands a stream handle
    to [hts_close] or a header to [bam_hdr_destroy]: [open] on an object that
    is open already does not close the handle it replaces, and [copyHeader]
    does not destroy the header it replaces. *)
Theorem apply_ops_release_nothing ops f h :
  let o := apply_ops lib lit_addr ops f h in
  closed_handles (outcome_history o) = closed_handles h /\
  destroyed_headers (outcome_history o) = destroyed_headers h.
Proof.
  cbv zeta. revert f h. induction ops as [|op ops IH]; intros f h.
  - now cbn.
  - cbn [apply_ops]. unfold bind.
    pose proof (apply_op_releases_nothing op f h) as Hop. cbv zeta in Hop.
    destruct (apply_op lib lit_addr op f h) as [f1 h1| |]; cbn in Hop.
    + destruct Hop as [Hc1 Hd1]. destruct (IH f1 h1) as [Hc Hd].
      split; congruence.
    + exact Hop.
    + exact Hop.
Qed.

(** X3: through any sequence of operations that returns, the iterators
    handed to [sam_itr_destroy], in order, followed by the iterator the object
    holds at the end, are exactly the iterator the object held at the start
    followed by the iterators the index queries handed out, in order.  So
    every [sam_itr_destroy] is called on the iterator the object holds at
    that moment, every iterator a query hands out is destroyed by the next
    [setRegion] and by nothing else, and the only one not destroyed is the
    one the object holds at the end. *)
Theorem apply_ops_iterators ops f h f' h' :
  apply_ops lib lit_addr ops f h = Ret f' h' ->
  exists t,
    h' = h ++ t /\
    destroyed_iters t ++ held_iter f' = held_iter f ++ created_iters t.
Proof.
  revert f h. induction ops as [|op ops IH]; intros f h E.
  - cbn in E. unfold ret in E. returned. exists [].
    split; [symmetry; apply app_nil_r|]. cbn. now rewrite app_nil_r.
  - cbn in E. unfold bind in E.
    destruct (apply_op lib lit_addr op f h) as [f1 h1| |] eqn:E1;
      try discriminate.
    apply apply_op_iterators in E1 as [t1 [-> H1]].
    apply IH in E as [t2 [-> H2]].
    exists (t1 ++ t2). split; [now rewrite app_assoc|].
    rewrite destroyed_iters_app, created_iters_app.
    rewrite <- app_assoc, H2, !app_assoc, H1. reflexivity.
Qed.

(** X4: the life of an object.  [HtsFile(f, mode)], then any operations,
    then the destructor: exactly one handle goes to [hts_close], the one the
    object holds at the end; when no operation in between was an [open] it is
    the non-null handle [hts_open] returned at construction. *)
Theorem HtsFile_life_closes_one_handle fn mode ops h f0 h0 f1 h1 :
  HtsFile_new_open lib lit_addr fn mode h = Ret f0 h0 ->
  apply_ops lib lit_addr ops f0 h0 = Ret f1 h1 ->
  (exists h2,
     HtsFile_destroy lib f1 h1 = Ret tt h2 /\
     closed_handles h2 = closed_handles h ++ [fp f1]) /\
  (untouched M_fp ops = true ->
   fp f1 = lib ptr h (hts_open fn (c_text mode)) /\ fp f1 <> nullptr).
Proof.
  intros Enew Eops. split.
  - eexists. split; [apply HtsFile_destroy_run|]. cbv zeta.
    rewrite !closed_handles_app. cbn. rewrite app_nil_r. f_equal.
    pose proof (apply_ops_release_nothing ops f0 h0) as [Hc _].
    rewrite Eops in Hc. cbn in Hc. rewrite Hc.
    pose proof (apply_op_releases_nothing (Op_open fn) (HtsFile_new mode) h)
      as [Hc0 _].
    change (apply_op lib lit_addr (Op_open fn) (HtsFile_new mode) h)
      with (HtsFile_new_open lib lit_addr fn mode h) in Hc0.
    rewrite Enew in Hc0. exact Hc0.
  - intros Hfp.
    destruct (apply_ops_frame ops f0 h0 f1 h1 Eops) as [_ Hall].
    specialize (Hall M_fp Hfp). cbn in Hall. rewrite Hall.
    revert Enew. run.
    destruct (is_null _) eqn:Hnull; [discriminate|].
    cases; intros E; returned; cbn; split; try reflexivity;
      unfold is_null in Hnull; now apply N.eqb_neq in Hnull.
Qed.

End Sequences.

(** ** Opening: failure, and the two subclasses *)

Section Constructing.
Context {S B : Type} (lib : library S B) (lit_addr : literal -> ptr).
Implicit Types (f : HtsFile) (h : history S B).

(** X5: [open(target, f)] never returns false.  When [hts_open] gives no
    handle the process is stopped by [SEQAN_FAIL], after that one call and
    before anything else is opened, read or allocated; when it gives a handle
    [open] returns true and the object holds that handle and the file
    name.  The constructor [HtsFile(f, mode)] stops the same way, so it never
    yields an object without a handle. *)
Theorem open_stops_or_returns_true f fn h :
  let o := hts_open fn (c_text (file_mode f)) in
  (lib ptr h o = nullptr ->
   open lib lit_addr f fn h = Abort (h ++ [Ev o nullptr])) /\
  (lib ptr h o <> nullptr ->
   exists f' h',
     open lib lit_addr f fn h = Ret (true, f') h' /\
     fp f' = lib ptr h o /\ filename f' = fn) /\
  (forall mode,
     lib ptr h (hts_open fn (c_text mode)) = nullptr ->
     HtsFile_new_open lib lit_addr fn mode h
     = Abort (h ++ [Ev (hts_open fn (c_text mode)) nullptr])).
Proof.
  cbv zeta. split; [|split].
  - intros Hnull. run. now rewrite Hnull.
  - intros Hp. run.
    destruct (is_null _) eqn:Hnull.
    + unfold is_null in Hnull. now apply N.eqb_eq in Hnull.
    + cases; do 2 eexists; repeat split.
  - intros mode Hnull. run. now rewrite Hnull.
Qed.

(** X6: [HtsFileOut(f)] opens in mode ["wb"] and reads no header: the
    object it yields has a null header, no index and no iterator, and a
    [writeHeader] on it, with no [copyHeader] before, hands the null header
    to [sam_hdr_write].  (The literal ["wb"] is not the object of the literal
    ["r"].) *)
Theorem HtsFileOut_has_no_header fn h f' h' :
  lit_addr Lit_HtsFileOut_f <> lit_addr Lit_read_mode ->
  HtsFileOut_new_open lib lit_addr fn h = Ret f' h' ->
  h' = h ++ [Ev (hts_open fn "wb") (fp f'); Ev bam_init1 (hts_record f')] /\
  hdr f' = nullptr /\ hts_index f' = nullptr /\ hts_iter f' = nullptr /\
  at_end f' = false /\
  exists r h'',
    writeHeader lib f' h' = Ret (lnot r) h'' /\
    last_event h'' = Some (Ev (sam_hdr_write (fp f') nullptr) r).
Proof.
  intros Hlit. apply N.eqb_neq in Hlit.
  unfold HtsFileOut_new_open. run. unfold ptr_eq, read_mode, lit. cbn.
  rewrite Hlit.
  destruct (is_null _); [discriminate|].
  intros E. returned. cbn. rewrite <- app_assoc.
  repeat split. do 2 eexists. split; [reflexivity|].
  now rewrite last_event_app.
Qed.

End Constructing.

(** [HtsFileIn(f)] and the object of its literal. *)
Section Reader.
Context {S B : Type} (lib : library S B) (lit_addr : literal -> ptr).
Implicit Types (f : HtsFile) (h : history S B).

(** X7: whether [HtsFileIn(f)] reads the header hangs on where the
    implementation keeps its string literals, since [open()] compares the
    mode pointer with the pointer [read_mode].  When the ["r"] of
    [HtsFileIn(f)] is the object of [read_mode], the header is read right
    after [hts_open]; when it is another object with the same characters,
    no header is read and the object is left with a null header. *)
Theorem HtsFileIn_header_follows_literal fn h f' h' :
  HtsFileIn_new_open lib lit_addr fn h = Ret f' h' ->
  (lit_addr Lit_HtsFileIn_f = lit_addr Lit_read_mode ->
   h' = h ++ [Ev (hts_open fn "r") (fp f'); Ev (sam_hdr_read (fp f')) (hdr f');
              Ev bam_init1 (hts_record f')]) /\
  (lit_addr Lit_HtsFileIn_f <> lit_addr Lit_read_mode ->
   h' = h ++ [Ev (hts_open fn "r") (fp f'); Ev bam_init1 (hts_record f')] /\
   hdr f' = nullptr).
Proof.
  unfold HtsFileIn_new_open. run. unfold ptr_eq, read_mode, lit. cbn.
  destruct (is_null _); [discriminate|].
  destruct (N.eqb_spec (lit_addr Lit_HtsFileIn_f) (lit_addr Lit_read_mode))
    as [Heq|Hne]; intros E; returned; cbn; rewrite <- !app_assoc; cbn;
    split; intros H; try contradiction; auto.
Qed.

End Reader.

(** ** Reading in a row *)

Section ReadingInARow.
Context {S B : Type} (lib : library S B).
Implicit Types (f : HtsFile) (h : history S B).

Lemma set_at_end_same f : set_at_end f (at_end f) = f.
Proof. now destruct f. Qed.

(** X8: [n] calls of [readRecord(file)] in a row make [n] calls of
    [sam_read1], all on the handle, the header and the buffer the object
    held at the start; each returns whether its status was [>= 0]; and the
    object at the end is the object at the start but for the flag, which is
    true exactly when it was true before or one of the reads failed. *)
Theorem readRecord_times_flag n f h :
  exists statuses : list Z,
    List.length statuses = n /\
    readRecord_times lib n f h
    = Ret (map (fun r => (0 <=? r)%Z) statuses,
           set_at_end f (at_end f || existsb (fun r => (r <? 0)%Z) statuses))
          (h ++ map (fun r => Ev (sam_read1 (fp f) (hdr f) (hts_record f)) r)
                    statuses).
Proof.
  revert f h. induction n as [|n IH]; intros f h.
  - exists []. split; [reflexivity|]. cbn.
    now rewrite orb_false_r, set_at_end_same, app_nil_r.
  - cbn [readRecord_times]. unfold bind at 1. rewrite readRecord_run.
    cbv zeta.
    set (r := lib Z h (sam_read1 (fp f) (hdr f) (hts_record f))).
    destruct (0 <=? r)%Z eqn:Hr; cbn [fst snd].
    + destruct (IH f (h ++ [Ev (sam_read1 (fp f) (hdr f) (hts_record f)) r]))
        as [rs [Hlen E]].
      exists (r :: rs). split; [cbn; lia|].
      unfold bind. rewrite E. unfold ret. cbn [fst snd map existsb].
      rewrite Hr. apply Z.leb_le in Hr.
      replace (r <? 0)%Z with false by (symmetry; apply Z.ltb_ge; lia).
      cbn [orb]. now rewrite <- app_assoc.
    + destruct (IH (set_at_end f true)
                   (h ++ [Ev (sam_read1 (fp f) (hdr f) (hts_record f)) r]))
        as [rs [Hlen E]].
      exists (r :: rs). split; [cbn; lia|].
      unfold bind. rewrite E. unfold ret. cbn [fst snd map existsb].
      rewrite Hr. apply Z.leb_gt in Hr.
      replace (r <? 0)%Z with true by (symmetry; apply Z.ltb_lt; lia).
      cbn. rewrite orb_true_r, <- app_assoc. reflexivity.
Qed.

End ReadingInARow.

(** ** The region buffer *)

Lemma nb_digits_pos (d : Decimal.uint) :
  d <> Decimal.Nil -> (1 <= Decimal.nb_digits d)%nat.
Proof. destruct d; cbn; try lia; congruence. Qed.

(** A number written with its lowest digit first and no zero at its high
    end is at least ten to the number of its digits less one. *)
Lemma little_endian_lower_bound (d : Decimal.uint) :
  DecimalFacts.nztail d = d -> d <> Decimal.Nil ->
  (10 ^ N.of_nat (Decimal.nb_digits d - 1) <= Unsigned.of_lu d)%N.
Proof.
  induction d; intros Hn Hnil; [congruence|..];
    cbn [DecimalFacts.nztail] in Hn.
  all: assert (Hd : DecimalFacts.nztail d = d)
    by (revert Hn; destruct (DecimalFacts.nztail d); intros Hn;
        try discriminate Hn; congruence).
  all: cbn [Unsigned.of_lu Decimal.nb_digits].
  all: destruct (Decimal.uint_eq_dec d Decimal.Nil) as [->|Hne];
    [cbn in Hn |- *; try discriminate Hn; lia|].
  all: pose proof (IHd Hd Hne) as IH.
  all: pose proof (nb_digits_pos d Hne) as Hp.
  all: replace (N.of_nat (S (Decimal.nb_digits d) - 1))
         with (N.succ (N.of_nat (Decimal.nb_digits d - 1))) by lia.
  all: rewrite N.pow_succ_r'; lia.
Qed.

Lemma to_uint_lower_bound (p : positive) :
  (10 ^ N.of_nat (Decimal.nb_digits (Pos.to_uint p) - 1) <= N.pos p)%N.
Proof.
  set (l := Pos.to_little_uint p).
  assert (Hv : Unsigned.of_lu l = N.pos p).
  { rewrite <- (Unsigned.of_to p). unfold Pos.to_uint.
    now rewrite Unsigned.of_lu_rev. }
  assert (Hl : DecimalFacts.nztail l = l).
  { pose proof (Unsigned.to_of_lu l) as H. rewrite Hv in H. cbn in H.
    fold l in H. unfold DecimalFacts.lnorm in H.
    destruct (DecimalFacts.nztail l) eqn:E; try congruence.
    apply Unsigned.of_lu_0 in E. congruence. }
  assert (Hnil : l <> Decimal.Nil) by (intros E; rewrite E in Hv; discriminate).
  unfold Pos.to_uint. fold l. rewrite DecimalFacts.nb_digits_rev, <- Hv.
  now apply little_endian_lower_bound.
Qed.

(** A positive number up to [2^31] has at most ten decimal digits. *)
Lemma digits_up_to_2_31 (p : positive) :
  (N.pos p <= 2 ^ 31)%N -> (Decimal.nb_digits (Pos.to_uint p) <= 10)%nat.
Proof.
  intros Hp. pose proof (to_uint_lower_bound p) as H.
  destruct (Nat.le_gt_cases (Decimal.nb_digits (Pos.to_uint p)) 10)
    as [|Hgt]; [assumption|].
  exfalso.
  assert (Hpow : (10 ^ 10
                  <= 10 ^ N.of_nat (Decimal.nb_digits (Pos.to_uint p) - 1))%N).
  { apply N.pow_le_mono_r; lia. }
  change (2 ^ 31)%N with 2147483648%N in Hp.
  change (10 ^ 10)%N with 10000000000%N in Hpow. lia.
Qed.

Lemma length_digits (d : Decimal.uint) :
  String.length (NilEmpty.string_of_uint d) = Decimal.nb_digits d.
Proof. induction d; cbn; congruence. Qed.

Lemma length_to_uint (p : positive) :
  String.length (NilZero.string_of_uint (Pos.to_uint p))
  = Decimal.nb_digits (Pos.to_uint p).
Proof.
  unfold NilZero.string_of_uint.
  destruct (Pos.to_uint p) eqn:E; try (rewrite <- E; apply length_digits).
  now apply Unsigned.to_uint_nonnil in E.
Qed.

(** What [%d] writes for an [int]: at most eleven characters, and at most
    ten when the [int] is not negative. *)
Lemma dec_length (z : Z) :
  int_range z ->
  (String.length (dec z) <= 11)%nat /\
  ((0 <= z)%Z -> (String.length (dec z) <= 10)%nat).
Proof.
  unfold int_range. change (2 ^ 31)%Z with 2147483648%Z. intros Hz.
  destruct z as [|p|p].
  - cbn. lia.
  - assert (Hd : (Decimal.nb_digits (Pos.to_uint p) <= 10)%nat).
    { apply digits_up_to_2_31. change (2 ^ 31)%N with 2147483648%N. lia. }
    unfold dec. cbn [Z.to_int NilZero.string_of_int].
    rewrite length_to_uint. lia.
  - assert (Hd : (Decimal.nb_digits (Pos.to_uint p) <= 10)%nat).
    { apply digits_up_to_2_31. change (2 ^ 31)%N with 2147483648%N. lia. }
    unfold dec. cbn [Z.to_int NilZero.string_of_int String.length].
    rewrite length_to_uint. lia.
Qed.

Lemma length_append (s t : string) :
  String.length (s ++ t)%string = (String.length s + String.length t)%nat.
Proof. induction s; cbn; congruence. Qed.

Lemma length_region_string (chromosome : string) (start end_ : Z) :
  String.length (region_string chromosome start end_)
  = (String.length chromosome + String.length (dec start)
     + String.length (dec end_) + 2)%nat.
Proof.
  unfold region_string. rewrite !length_append. cbn. lia.
Qed.

Section RegionBuffer.
Context {S B : Type} (lib : library S B).
Implicit Types (f : HtsFile) (h : history S B).

(** X9: the 50-byte buffer of [setRegion(file, chromosome, start, end)].
    For a chromosome name of at most 25 characters the call stays inside the
    buffer and returns, whatever the two [int] are; when neither is negative,
    27 characters are safe.  The bound is the best: with 26 characters and
    both coordinates the least [int], the region string has 50 characters
    and the write runs past the buffer. *)
Theorem setRegion_name_buffer f chromosome start end_ h :
  int_range start -> int_range end_ ->
  ((String.length chromosome <= 25)%nat \/
   ((String.length chromosome <= 27)%nat /\ (0 <= start)%Z /\ (0 <= end_)%Z)
   -> exists b f' h',
        setRegion_name lib f chromosome start end_ h = Ret (b, f') h') /\
  (String.length chromosome = 26%nat ->
   setRegion_name lib f chromosome (- 2 ^ 31) (- 2 ^ 31) h
   = Undef (h ++ destroy_iter_events f)).
Proof.
  intros Hs He. split.
  - intros Hlen.
    assert (Hfit : fits_region_buffer (region_string chromosome start end_)
                   = true).
    { unfold fits_region_buffer, region_capacity. apply Nat.ltb_lt.
      rewrite length_region_string.
      destruct (dec_length start Hs) as [Hs11 Hs10].
      destruct (dec_length end_ He) as [He11 He10].
      destruct Hlen as [Hc|[Hc [Hs0 He0]]].
      - lia.
      - specialize (Hs10 Hs0). specialize (He10 He0). lia. }
    rewrite setRegion_name_run, Hfit, setRegion_run. cbv zeta. eauto.
  - intros Hc. rewrite setRegion_name_run.
    replace (fits_region_buffer _) with false; [reflexivity|].
    symmetry. unfold fits_region_buffer, region_capacity. apply Nat.ltb_ge.
    rewrite length_region_string, Hc. cbn. lia.
Qed.

End RegionBuffer.

(** ** The properties above at concrete inputs *)

(** X1 at a concrete input: the file of [Script.reading] reads past its
    end, is given a region and has its index loaded; none of the three
    assigns the handle. *)
Lemma apply_ops_frame_witness :
  let lib := Script.scripted [-1; 0; 64]%Z in
  let ops := [Op_readRecord; Op_setRegion "chr1"; Op_loadIndex] in
  let f' := set_hts_index Script.exhausted 64%N in
  let h' := [Ev (sam_read1 16%N 32%N 48%N) (-1)%Z;
             Ev (sam_itr_querys nullptr 32%N "chr1") nullptr;
             Ev (sam_index_load 16%N "test.bam") 64%N] in
  apply_ops lib Script.pooled ops Script.reading [] = Ret f' h' /\
  file_mode f' = file_mode Script.reading /\
  fp f' = fp Script.reading.
Proof.
  cbv zeta. split; [reflexivity|].
  destruct (apply_ops_frame (Script.scripted [-1; 0; 64]%Z) Script.pooled
              [Op_readRecord; Op_setRegion "chr1"; Op_loadIndex]
              Script.reading [] _ _ eq_refl) as [Hmode Hall].
  split; [exact Hmode|]. exact (Hall M_fp eq_refl).
Defined.

(** X3 at a concrete input: the file of [Script.iterating], which holds
    iterator 80, is given two regions one after the other: 80 and 96 are
    destroyed, in that order, 96 and 112 were handed out, and 112 is held at
    the end. *)
Lemma apply_ops_iterators_witness :
  let lib := Script.scripted [0; 96; 0; 112]%Z in
  let ops := [Op_setRegion "chr1"; Op_setRegion "chr2"] in
  let t := [Ev (sam_itr_destroy 80%N) tt;
            Ev (sam_itr_querys 64%N 32%N "chr1") 96%N;
            Ev (sam_itr_destroy 96%N) tt;
            Ev (sam_itr_querys 64%N 32%N "chr2") 112%N] in
  apply_ops lib Script.pooled ops Script.iterating []
    = Ret (set_hts_iter Script.iterating 112%N) t /\
  destroyed_iters t = [80%N; 96%N] /\
  created_iters t = [96%N; 112%N] /\
  exists t',
    t = [] ++ t' /\
    destroyed_iters t' ++ [112%N] = [80%N] ++ created_iters t'.
Proof.
  cbv zeta. split; [reflexivity|]. split; [reflexivity|].
  split; [reflexivity|].
  exact (apply_ops_iterators (Script.scripted [0; 96; 0; 112]%Z)
           Script.pooled [Op_setRegion "chr1"; Op_setRegion "chr2"]
           Script.iterating [] _ _ eq_refl).
Defined.

(** X4 at a concrete input: ["test.bam"] is opened by the constructor, read
    once and torn down; handle 16 is the one closed. *)
Lemma HtsFile_life_closes_one_handle_witness :
  let lib := Script.scripted [16; 32; 48; 0; 0; 0]%Z in
  let mode := lit Script.pooled Lit_HtsFileIn_f in
  let h0 := [Ev (hts_open "test.bam" "r") 16%N; Ev (sam_hdr_read 16%N) 32%N;
             Ev bam_init1 48%N] in
  let h1 := h0 ++ [Ev (sam_read1 16%N 32%N 48%N) 0%Z] in
  HtsFile_new_open lib Script.pooled "test.bam" mode [] = Ret Script.reading h0 /\
  apply_ops lib Script.pooled [Op_readRecord] Script.reading h0
    = Ret Script.reading h1 /\
  (exists h2, HtsFile_destroy lib Script.reading h1 = Ret tt h2 /\
              closed_handles h2 = [16%N]) /\
  fp Script.reading = 16%N /\ fp Script.reading <> nullptr.
Proof.
  cbv zeta. split; [reflexivity|]. split; [reflexivity|].
  destruct (HtsFile_life_closes_one_handle
              (Script.scripted [16; 32; 48; 0; 0; 0]%Z) Script.pooled
              "test.bam" (lit Script.pooled Lit_HtsFileIn_f) [Op_readRecord]
              [] _ _ _ _ eq_refl eq_refl) as [Hclose Hfp].
  split; [exact Hclose|]. exact (Hfp eq_refl).
Defined.

(** X5 at a concrete input: a file that is not there. *)
Lemma open_stops_or_returns_true_witness :
  let lib := Script.scripted [0]%Z in
  open lib Script.pooled (HtsFileIn_new Script.pooled) "missing.bam" []
  = Abort [Ev (hts_open "missing.bam" "r") nullptr].
Proof.
  cbv zeta.
  exact (proj1 (open_stops_or_returns_true (Script.scripted [0]%Z)
                  Script.pooled (HtsFileIn_new Script.pooled) "missing.bam" [])
           eq_refl).
Defined.

(** X6 at a concrete input: ["out.bam"] opened by [HtsFileOut(f)]. *)
Lemma HtsFileOut_has_no_header_witness :
  let lib := Script.scripted [16; 48; 0]%Z in
  let f' := mkHtsFile "out.bam" 16%N nullptr 48%N nullptr nullptr
                      (lit Script.pooled Lit_HtsFileOut_f) false in
  let h' := [Ev (hts_open "out.bam" "wb") 16%N; Ev bam_init1 48%N] in
  Script.pooled Lit_HtsFileOut_f <> Script.pooled Lit_read_mode /\
  HtsFileOut_new_open lib Script.pooled "out.bam" [] = Ret f' h' /\
  hdr f' = nullptr.
Proof.
  cbv zeta.
  assert (Hlit : Script.pooled Lit_HtsFileOut_f <> Script.pooled Lit_read_mode)
    by discriminate.
  split; [exact Hlit|]. split; [reflexivity|].
  destruct (HtsFileOut_has_no_header (Script.scripted [16; 48; 0]%Z)
              Script.pooled "out.bam" [] _ _ Hlit eq_refl) as [_ [Hhdr _]].
  exact Hhdr.
Defined.

(** X7 at a concrete input: an implementation that pools its literals, and
    ["test.bam"] opened by [HtsFileIn(f)]. *)
Lemma HtsFileIn_header_follows_literal_witness :
  let lib := Script.scripted [16; 32; 48]%Z in
  let h' := [Ev (hts_open "test.bam" "r") 16%N; Ev (sam_hdr_read 16%N) 32%N;
             Ev bam_init1 48%N] in
  HtsFileIn_new_open lib Script.pooled "test.bam" [] = Ret Script.reading h' /\
  h' = [] ++ [Ev (hts_open "test.bam" "r") (fp Script.reading);
              Ev (sam_hdr_read (fp Script.reading)) (hdr Script.reading);
              Ev bam_init1 (hts_record Script.reading)].
Proof.
  cbv zeta. split; [reflexivity|].
  exact (proj1 (HtsFileIn_header_follows_literal
                  (Script.scripted [16; 32; 48]%Z) Script.pooled "test.bam" []
                  _ _ eq_refl) eq_refl).
Defined.

(** X9 at a concrete input: the region of the spec's scenario. *)
Lemma setRegion_name_buffer_witness :
  let lib := Script.scripted [0; 96]%Z in
  int_range 1000 /\ int_range 2000 /\
  exists b f' h',
    setRegion_name lib Script.iterating "chr1" 1000 2000 [] = Ret (b, f') h'.
Proof.
  cbv zeta.
  assert (H1 : int_range 1000) by (unfold int_range; lia).
  assert (H2 : int_range 2000) by (unfold int_range; lia).
  split; [exact H1|]. split; [exact H2|].
  apply (proj1 (setRegion_name_buffer (Script.scripted [0; 96]%Z)
                  Script.iterating "chr1" 1000 2000 [] H1 H2)).
  left. cbn. lia.
Defined.
